(** * ias.simple_cdk: the option-processing pipeline of the CDK template

    A shallow embedding of [src/ias/simple_cdk.py].  Python values live in an
    explicit store: dictionaries and lists are objects with an identity, and
    a variable holds either an immutable scalar or a reference to such an
    object.  The functions of the module are written in a small state and
    exception monad over that store, one definition per source function. *)

From stdpp Require Import gmap strings list fin_maps pretty.

Open Scope string_scope.

(** ** Values and the object store *)

(** Objects are addressed by their number in the store. *)
Abbreviation loc := nat.

(** What a Python variable can hold: [None], a [str], an [int], or a
    reference to a mutable container. *)
Inductive val :=
  | VNone
  | VStr (s : string)
  | VInt (z : Z)
  | VRef (l : loc).

Global Instance val_eq_dec : EqDecision val.
Proof. solve_decision. Defined.

Global Instance val_inhabited : Inhabited val := populate VNone.

(** The two container kinds the module uses: [dict] with string keys, and
    [list]. *)
Inductive obj :=
  | ODict (d : gmap string val)
  | OList (xs : list val).

(** The store: object number [l] is the [l]-th entry; allocation appends. *)
Abbreviation heap := (list obj).

(** ** Exceptions and the monad *)

Inductive exn :=
  | KeyError (k : string)
  | IndexError
  | AttributeError
  | TypeError
  | FileNotFoundError
  | TOMLDecodeError
  | Dangling
  | Unmodelled.

Global Instance exn_eq_dec : EqDecision exn.
Proof. solve_decision. Defined.

(** [Dangling] is a reference to no object, which no Python program can
    hold; [Unmodelled] marks a step the model does not describe. *)

(** A call either returns a value or raises; both leave a store behind,
    since what was mutated before a [raise] stays mutated. *)
Inductive result (A : Type) :=
  | Ok (a : A) (h : heap)
  | Raise (e : exn) (h : heap).
Arguments Ok {A} a h.
Arguments Raise {A} e h.

Definition M (A : Type) : Type := heap → result A.

Definition ret {A} (a : A) : M A := λ h, Ok a h.

Definition bind {A B} (c : M A) (k : A → M B) : M B :=
  λ h, match c h with
       | Ok a h' => k a h'
       | Raise e h' => Raise e h'
       end.

Definition raise {A} (e : exn) : M A := λ h, Raise e h.

Declare Scope py_scope.
Delimit Scope py_scope with py.
Notation "'let!' x ':=' c 'in' k" := (bind c (λ x, k))
  (at level 10, x name, c at level 100, k at level 200,
   format "'[v' 'let!'  x  ':='  c  'in' '/' k ']'") : py_scope.
Notation "c ';;' k" := (bind c (λ _, k))
  (at level 100, k at level 200, right associativity) : py_scope.
Open Scope py_scope.

(** [for x in xs: body] *)
Fixpoint for_in {A} (xs : list A) (body : A → M unit) : M unit :=
  match xs with
  | [] => ret tt
  | x :: xs' => body x ;; for_in xs' body
  end.

(** [try: c except FileNotFoundError: pass] *)
Definition except_FileNotFoundError_pass (c : M unit) : M unit :=
  λ h, match c h with
       | Raise FileNotFoundError h' => Ok tt h'
       | r => r
       end.

(** ** Primitive operations on objects *)

Definition alloc (o : obj) : M val := λ h, Ok (VRef (length h)) (h ++ [o]).

(** [{...}] and [[...]] literals build a fresh object. *)
Definition new_dict (d : gmap string val) : M val := alloc (ODict d).
Definition new_list (xs : list val) : M val := alloc (OList xs).

(** [o.get(k, dflt)]: only a [dict] has [get]. *)
Definition py_get (o : val) (k : string) (dflt : val) : M val :=
  λ h, match o with
       | VRef l =>
           match h !! l with
           | Some (ODict d) => Ok (default dflt (d !! k)) h
           | Some (OList _) => Raise AttributeError h
           | None => Raise Dangling h
           end
       | _ => Raise AttributeError h
       end.

(** [o[k]] with a string key. *)
Definition py_getitem (o : val) (k : string) : M val :=
  λ h, match o with
       | VRef l =>
           match h !! l with
           | Some (ODict d) =>
               match d !! k with
               | Some v => Ok v h
               | None => Raise (KeyError k) h
               end
           | Some (OList _) => Raise TypeError h
           | None => Raise Dangling h
           end
       | _ => Raise TypeError h
       end.

(** [o[k] = v] with a string key: mutates the object [o] refers to. *)
Definition py_setitem (o : val) (k : string) (v : val) : M unit :=
  λ h, match o with
       | VRef l =>
           match h !! l with
           | Some (ODict d) => Ok tt (<[l := ODict (<[k := v]> d)]> h)
           | Some (OList _) => Raise TypeError h
           | None => Raise Dangling h
           end
       | _ => Raise TypeError h
       end.

(** [len(o)] *)
Definition py_len (o : val) : M nat :=
  λ h, match o with
       | VRef l =>
           match h !! l with
           | Some (ODict d) => Ok (size d) h
           | Some (OList xs) => Ok (length xs) h
           | None => Raise Dangling h
           end
       | VStr s => Ok (String.length s) h
       | _ => Raise TypeError h
       end.

(** [o.append(v)]: only a [list] has [append]; mutates it. *)
Definition py_append (o : val) (v : val) : M unit :=
  λ h, match o with
       | VRef l =>
           match h !! l with
           | Some (OList xs) => Ok tt (<[l := OList (xs ++ [v])]> h)
           | Some (ODict _) => Raise AttributeError h
           | None => Raise Dangling h
           end
       | _ => Raise AttributeError h
       end.

(** [dst.update(src)]: keys of [src] are written into the object [dst]
    refers to, replacing the values of keys it already has. *)
Definition py_update (dst src : val) : M unit :=
  λ h, match dst with
       | VRef l =>
           match h !! l with
           | Some (ODict d) =>
               match src with
               | VRef l' =>
                   match h !! l' with
                   | Some (ODict d') => Ok tt (<[l := ODict (d' ∪ d)]> h)
                   | Some (OList _) => Raise TypeError h
                   | None => Raise Dangling h
                   end
               | _ => Raise TypeError h
               end
           | Some (OList _) => Raise AttributeError h
           | None => Raise Dangling h
           end
       | _ => Raise AttributeError h
       end.

(** The elements a [for] loop over [o] visits: those of a list, the keys of
    a dict, the characters of a string. *)
Fixpoint chars (s : string) : list val :=
  match s with
  | EmptyString => []
  | String c s' => VStr (String c EmptyString) :: chars s'
  end.

Definition py_iter (o : val) : M (list val) :=
  λ h, match o with
       | VRef l =>
           match h !! l with
           | Some (OList xs) => Ok xs h
           | Some (ODict d) => Ok (VStr <$> (map_to_list d).*1) h
           | None => Raise Dangling h
           end
       | VStr s => Ok (chars s) h
       | _ => Raise TypeError h
       end.

(** [tags.items()] *)
Definition py_items (o : val) : M (gmap string val) :=
  λ h, match o with
       | VRef l =>
           match h !! l with
           | Some (ODict d) => Ok d h
           | Some (OList _) => Raise AttributeError h
           | None => Raise Dangling h
           end
       | _ => Raise AttributeError h
       end.

Definition is_None (v : val) : bool := bool_decide (v = VNone).

(** [v == w] where one side is a string literal. *)
Definition py_eq (v w : val) : bool := bool_decide (v = w).
Definition py_ne (v w : val) : bool := negb (py_eq v w).

(** [f"{v}"].  The text a container formats to is outside the model (the
    module formats names, which are strings): that case stops the run with
    [Unmodelled]. *)
Definition py_str (v : val) : M string :=
  match v with
  | VNone => ret "None"
  | VStr s => ret s
  | VInt z => ret (pretty z)
  | VRef _ => raise Unmodelled
  end.

(** ** [copy.deepcopy]

    A deep copy rebuilds every object reachable from its argument at a
    fresh address and keeps the sharing between them.  Here every object of
    the store is rebuilt, [length h] addresses further on: the part
    reachable from the result is the copy, the rest is never referred to. *)

Definition shift_val (n : nat) (v : val) : val :=
  match v with
  | VRef l => VRef (n + l)
  | _ => v
  end.

Definition shift_obj (n : nat) (o : obj) : obj :=
  match o with
  | ODict d => ODict (shift_val n <$> d)
  | OList xs => OList (shift_val n <$> xs)
  end.

Definition copy_of (h : heap) : heap := h ++ (shift_obj (length h) <$> h).

Definition deepcopy (v : val) : M val :=
  λ h, Ok (shift_val (length h) v) (copy_of h).

(** ** Helper functions of the module *)

(** [_make_stack_name(prefix, id, env_name)], on whatever the three
    arguments hold; the comparisons are with string literals. *)
Definition _make_stack_name (prefix id env_name : val) : M val :=
  if py_eq id (VStr "default") && py_ne prefix (VStr "") then
    let! p := py_str prefix in ret (VStr p)
  else if py_eq prefix (VStr "") then
    let! i := py_str id in ret (VStr i)
  else if py_eq env_name (VStr "") then
    let! p := py_str prefix in
    let! i := py_str id in
    ret (VStr (p ++ "-" ++ i))
  else
    let! p := py_str prefix in
    let! i := py_str id in
    let! e := py_str env_name in
    ret (VStr (p ++ "-" ++ i ++ "-" ++ e)).

(** ** The process environment and the file system

    [os.getenv] and the TOML files on disk are inputs of the processors.  A
    file that parses is given by its top-level table together with the
    nested tables and arrays that table refers to, addressed from 0; loading
    it places them at fresh addresses. *)

Inductive file :=
  | Missing
  | Malformed
  | Document (objs : list obj) (top : gmap string val).

Section Processors.

Variable getenv : string → option string.
Variable fs : string → file.

(** [os.getenv(name)]: the variable's text, or [None]. *)
Definition os_getenv (name : string) : M val :=
  ret (from_option VStr VNone (getenv name)).

(** [with open(path, "rb") as f: toml.load(f)] *)
Definition toml_load_path (path : string) : M val :=
  match fs path with
  | Missing => raise FileNotFoundError
  | Malformed => raise TOMLDecodeError
  | Document objs top =>
      λ h, Ok (VRef (length h + length objs))
              (h ++ (shift_obj (length h) <$> objs)
                 ++ [ODict (shift_val (length h) <$> top)])
  end.

(** ** Option processors *)

Definition set_env_account_region_from_env_vars (options : val) : M val :=
  let! new_options := deepcopy options in
  let! empty := new_dict ∅ in
  let! env := py_get new_options "environment" empty in
  let! account := py_get env "account" VNone in
  (if is_None account then
     let! a := os_getenv "CDK_DEFAULT_ACCOUNT" in
     py_setitem env "account" a
   else ret tt) ;;
  let! region := py_get env "region" VNone in
  (if is_None region then
     let! r := os_getenv "CDK_DEFAULT_REGION" in
     py_setitem env "region" r
   else ret tt) ;;
  let! name := py_get env "name" VNone in
  (if is_None name then py_setitem env "name" (VStr "") else ret tt) ;;
  py_setitem new_options "environment" env ;;
  ret new_options.

Definition set_default_stack_if_no_stacks (options : val) : M val :=
  let! new_options := deepcopy options in
  let! empty := new_list [] in
  let! stacks := py_get new_options "stacks" empty in
  let! n := py_len stacks in
  (if bool_decide (n = 0) then
     let! name := py_get new_options "deployment_name" (VStr "") in
     let! depends_on := new_list [] in
     let! stack_info :=
       new_dict {[ "id" := VStr "default"; "name" := name;
                   "depends_on" := depends_on ]} in
     py_append stacks stack_info ;;
     py_setitem new_options "stacks" stacks
   else ret tt) ;;
  ret new_options.

Definition set_stack_names (options : val) : M val :=
  let! new_options := deepcopy options in
  let! deployment_name := py_get new_options "deployment_name" (VStr "") in
  let! empty := new_dict ∅ in
  let! environment := py_get new_options "environment" empty in
  let! env_name := py_get environment "name" (VStr "") in
  let! empty_list := new_list [] in
  let! stacks := py_get new_options "stacks" empty_list in
  let! stack_infos := py_iter stacks in
  for_in stack_infos (λ stack_info,
    let! stack_id := py_get stack_info "id" (VStr "default") in
    let! name := py_get stack_info "name" VNone in
    if is_None name then
      let! new_name := _make_stack_name deployment_name stack_id env_name in
      py_setitem stack_info "name" new_name
    else ret tt) ;;
  py_setitem new_options "stacks" stacks ;;
  ret new_options.

(** Lines 209-217 of [load_toml_config_files]: the candidate file names. *)
Definition config_paths_of (options : val) : M (list string) :=
  let! deployment_name := py_get options "deployment_name" (VStr "") in
  let! empty := new_dict ∅ in
  let! environment := py_get options "environment" empty in
  let! env_name := py_get environment "name" (VStr "") in
  let! p1 :=
    (if py_ne env_name (VStr "") then
       let! e := py_str env_name in ret [e ++ ".toml"]
     else ret []) in
  let! p2 :=
    (if py_ne deployment_name (VStr "") then
       let! d := py_str deployment_name in ret [d ++ ".toml"]
     else ret []) in
  let! p3 :=
    (if py_ne deployment_name (VStr "") && py_ne env_name (VStr "") then
       let! d := py_str deployment_name in
       let! e := py_str env_name in
       ret [d ++ "-" ++ e ++ ".toml"]
     else ret []) in
  ret (p1 ++ p2 ++ p3)%list.

Definition load_toml_config_files (options : val) : M val :=
  let! config_paths := config_paths_of options in
  let! empty := new_dict ∅ in
  let! config_result := py_get options "context" empty in
  for_in config_paths (λ config_path,
    except_FileNotFoundError_pass
      (let! loaded := toml_load_path config_path in
       py_update config_result loaded)) ;;
  let! new_options := deepcopy options in
  py_setitem new_options "context" config_result ;;
  ret new_options.

Definition simple_defaults (options : val) : M val :=
  let! options := set_env_account_region_from_env_vars options in
  let! options := set_default_stack_if_no_stacks options in
  let! options := set_stack_names options in
  ret options.

Definition simple_config_defaults (options : val) : M val :=
  let! options := simple_defaults options in
  let! options := load_toml_config_files options in
  ret options.

End Processors.

(** ** The provisioning toolkit

    [aws_cdk] is an external collaborator.  Its handles are modelled as
    records of what their constructor was given; the toolkit receives the
    context mapping by value. *)

Record Environment := {
  env_account : val;
  env_region : val;
}.

Record App := {
  app_context : gmap string val;
}.

Record Stack := {
  stack_app : App;
  node_id : string;
  stack_name : val;
  stack_env : Environment;
  stack_tags : gmap string val;
}.

Definition cdk_Environment (account region : val) : Environment :=
  {| env_account := account; env_region := region |}.

(** [cdk.App(context=c)]: [c] is a mapping or [None]. *)
Definition cdk_App (context : val) : M App :=
  match context with
  | VNone => ret {| app_context := ∅ |}
  | _ => let! d := py_items context in ret {| app_context := d |}
  end.

(** [cdk.Stack(app, id, stack_name=name, env=env)]: the construct id is a
    string. *)
Definition cdk_Stack (app : App) (id name : val) (env : Environment) : M Stack :=
  match id with
  | VStr i =>
      ret {| stack_app := app; node_id := i; stack_name := name;
             stack_env := env; stack_tags := ∅ |}
  | _ => raise TypeError
  end.

(** [cdk.Tags.of(stack).add(key, value)] *)
Definition tags_add (stack : Stack) (key : string) (value : val) : Stack :=
  {| stack_app := stack_app stack; node_id := node_id stack;
     stack_name := stack_name stack; stack_env := stack_env stack;
     stack_tags := <[key := value]> (stack_tags stack) |}.

(** A construct sees the context of the application it belongs to. *)
Class Construct (T : Type) := node_context : T → gmap string val.
Global Instance App_Construct : Construct App := app_context.
Global Instance Stack_Construct : Construct Stack :=
  λ s, app_context (stack_app s).

(** [scope.node.try_get_context(key)] *)
Definition try_get_context `{Construct T} (scope : T) (key : string) : val :=
  default VNone (node_context scope !! key).

(** ** Model management functions *)

Record IasModel := {
  deployment_name : val;
  app : App;
  stacks : gmap string Stack;
  current_environment : val * Environment;
}.

Definition _create_environment (opts : val) : M (val * Environment) :=
  let! account := py_get opts "account" VNone in
  let! region := py_get opts "region" VNone in
  let env := cdk_Environment account region in
  let! name := py_getitem opts "name" in
  ret (name, env).

Definition _apply_stack_tags (stack : Stack) (tags : val) : M Stack :=
  let! items := py_items tags in
  ret (map_fold (λ key value stacktags, tags_add stacktags key value)
         stack items).

(** Lines 317-318 of [init_ias_model]: each processor receives what the one
    before it returned. *)
Fixpoint apply_processors (option_processors : list (val → M val))
    (options : val) : M val :=
  match option_processors with
  | [] => ret options
  | processor :: rest =>
      let! options := processor options in
      apply_processors rest options
  end.

(** Lines 326-331 of [init_ias_model]: the loop over the stack descriptors,
    with the local dictionary [stacks] as accumulator. *)
Fixpoint build_stacks (options : val) (app : App) (env : Environment)
    (stack_infos : list val) (stacks : gmap string Stack)
    : M (gmap string Stack) :=
  match stack_infos with
  | [] => ret stacks
  | stack_info :: rest =>
      let! stack_id := py_getitem stack_info "id" in
      let! stack_name := py_get stack_info "name" stack_id in
      let! stack := cdk_Stack app stack_id stack_name env in
      let! empty := new_dict ∅ in
      let! tags := py_get options "tags" empty in
      let! stack := _apply_stack_tags stack tags in
      build_stacks options app env rest (<[node_id stack := stack]> stacks)
  end.

Definition init_ias_model (options : val)
    (option_processors : list (val → M val)) : M IasModel :=
  let! options := apply_processors option_processors options in
  let! deployment_name := py_getitem options "deployment_name" in
  let! dflt := new_dict {[ "name" := VStr "" ]} in
  let! env := py_get options "environment" dflt in
  let! current_env := _create_environment env in
  let! context := py_get options "context" VNone in
  let! app := cdk_App context in
  let! empty := new_list [] in
  let! stack_list := py_get options "stacks" empty in
  let! stack_infos := py_iter stack_list in
  let! stacks := build_stacks options app current_env.2 stack_infos ∅ in
  ret {| deployment_name := deployment_name; app := app; stacks := stacks;
         current_environment := current_env |}.

(** ** Support functions *)

(** [key: str | List[str]] *)
Inductive key :=
  | KStr (k : string)
  | KList (ks : list string).

(** Lines 357-360 of [get_context_data]: the loop over [key[1:]]. *)
Fixpoint context_walk (ks : list string) (context : val) : M val :=
  match ks with
  | [] => ret context
  | k :: ks' =>
      if is_None context then ret context
      else
        let! context := py_get context k VNone in
        context_walk ks' context
  end.

Definition get_context_data `{Construct T} (scope : T) (key : key) : M val :=
  match key with
  | KStr k => ret (try_get_context scope k)
  | KList ks =>
      match ks with
      | [] => raise IndexError
      | k0 :: rest => context_walk rest (try_get_context scope k0)
      end
  end.

(** * Specification vocabulary *)


(** The four-branch naming rule, as the specification words it. *)
Definition stack_name_rule (prefix id env : string) : string :=
  if decide (id = "default" ∧ prefix ≠ "") then prefix
  else if decide (prefix = "") then id
  else if decide (env = "") then prefix ++ "-" ++ id
  else prefix ++ "-" ++ id ++ "-" ++ env.

(** The dictionary a value refers to, if it refers to one. *)
Definition dict_at (h : heap) (v : val) : option (gmap string val) :=
  match v with
  | VRef l =>
      match h !! l with
      | Some (ODict d) => Some d
      | _ => None
      end
  | _ => None
  end.

(** The list a value refers to, if it refers to one. *)
Definition list_at (h : heap) (v : val) : option (list val) :=
  match v with
  | VRef l =>
      match h !! l with
      | Some (OList xs) => Some xs
      | _ => None
      end
  | _ => None
  end.

(** The store after the object [v] refers to is replaced by [o]. *)
Definition store (v : val) (o : obj) (h : heap) : heap :=
  match v with
  | VRef l => <[l := o]> h
  | _ => h
  end.

(** The stack descriptors of an options record; a record without the key
    has none. *)
Definition stacks_in (h : heap) (d : gmap string val) : option (list val) :=
  match d !! "stacks" with
  | None => Some []
  | Some vs => list_at h vs
  end.

(** The environment descriptor of an options record; a record without the
    key has the empty one. *)
Definition env_in (h : heap) (d : gmap string val) : option (gmap string val) :=
  match d !! "environment" with
  | None => Some ∅
  | Some env => dict_at h env
  end.

(** The value a descriptor gives a field explicitly: present and not
    [None]. *)
Definition explicit (e : gmap string val) (k : string) : option val :=
  match e !! k with
  | Some v => if is_None v then None else Some v
  | None => None
  end.

(** What [os.getenv] returns for a variable. *)
Definition environ_val (getenv : string → option string) (name : string) : val :=
  from_option VStr VNone (getenv name).

(** A computation that only reads the store. *)
Definition reads_only {A} (c : M A) : Prop :=
  ∀ h a h', c h = Ok a h' → h' = h.

(** What the loop of [set_stack_names] keeps true of the store. *)
Definition names_kept (vs vi : val) (xs : list val) (v : val) (h : heap) : Prop :=
  list_at h vs = Some xs
  ∧ ∃ di, dict_at h vi = Some di ∧ di !! "name" = Some v.

(** Nested lookup along a key path, as the specification words it: nothing
    as soon as a key is absent at its level. *)
Fixpoint nested_lookup (h : heap) (v : val) (ks : list string) : option val :=
  match ks with
  | [] => Some v
  | k :: ks' =>
      match dict_at h v with
      | Some d =>
          match d !! k with
          | Some v' => nested_lookup h v' ks'
          | None => None
          end
      | None => None
      end
  end.

(** Every value the path reaches while keys remain is a mapping or [None]. *)
Fixpoint mappings_along (h : heap) (v : val) (ks : list string) : bool :=
  match ks with
  | [] => true
  | k :: ks' =>
      if is_None v then true
      else
        match dict_at h v with
        | Some d =>
            match d !! k with
            | Some v' => mappings_along h v' ks'
            | None => true
            end
        | None => false
        end
  end.

(** ** Sample inputs

    The context of the repository's [test_get_context_data]:
    [{"config1": "value1", "config2": {"subconfig1": "subvalue1"}}]. *)

Definition test_context_heap : heap :=
  [ODict {[ "subconfig1" := VStr "subvalue1" ]}].

Definition test_context_app : App :=
  {| app_context := {[ "config1" := VStr "value1"; "config2" := VRef 0 ]} |}.

(** The options [{"deployment_name": "test", "stacks": [{"id": "test2"}]}]. *)
Definition test_unnamed_heap : heap :=
  [ODict {[ "deployment_name" := VStr "test"; "stacks" := VRef 1 ]};
   OList [VRef 2];
   ODict {[ "id" := VStr "test2" ]}].

(** The options [{"deployment_name": "test"}]. *)
Definition test_name_only_heap : heap :=
  [ODict {[ "deployment_name" := VStr "test" ]}].

(** The options of the repository's
    [test_init_model_named_environment_default_region]:
    [{"deployment_name": "test",
      "environment": {"name": "testenv", "account": "234567890123"}}],
    with both CDK variables set in the process environment. *)
Definition test_named_env_heap : heap :=
  [ODict {[ "deployment_name" := VStr "test"; "environment" := VRef 1 ]};
   ODict {[ "name" := VStr "testenv"; "account" := VStr "234567890123" ]}].

Definition test_environ (name : string) : option string :=
  if String.eqb name "CDK_DEFAULT_ACCOUNT" then Some "123456789012"
  else if String.eqb name "CDK_DEFAULT_REGION" then Some "eu-north-0"
  else None.

(** The options of the repository's [test_set_stack_names]:
    [{"deployment_name": "test",
      "stacks": [{"id": "test1", "name": "test1name"}, {"id": "test2"}]}]. *)
Definition test_stack_names_heap : heap :=
  [ODict {[ "deployment_name" := VStr "test"; "stacks" := VRef 1 ]};
   OList [VRef 2; VRef 3];
   ODict {[ "id" := VStr "test1"; "name" := VStr "test1name" ]};
   ODict {[ "id" := VStr "test2" ]}].

(** A processor that fills in the deployment name on a copy of its
    argument. *)
Definition supply_deployment_name (options : val) : M val :=
  let! new_options := deepcopy options in
  py_setitem new_options "deployment_name" (VStr "late") ;;
  ret new_options.

(** No variable of the process environment is set. *)
Definition empty_environ : string → option string := λ _, None.

(** ** Vocabulary for the configuration loader *)

(** The text of a field that holds a string; a missing field counts as the
    empty string. *)
Definition str_field (d : gmap string val) (k : string) : option string :=
  match d !! k with
  | None => Some ""
  | Some (VStr s) => Some s
  | Some _ => None
  end.

(** The context mapping of an options record; a record without the key has
    the empty one. *)
Definition context_in (h : heap) (d : gmap string val) : option (gmap string val) :=
  match d !! "context" with
  | None => Some ∅
  | Some c => dict_at h c
  end.

(** The candidate file names in the order the docstring of
    [load_toml_config_files] lists them. *)
Definition candidate_paths (deployment_name env_name : string) : list string :=
  ((if decide (env_name ≠ "")
    then [(env_name ++ ".toml")%string] else [])
   ++ (if decide (deployment_name ≠ "")
       then [(deployment_name ++ ".toml")%string] else [])
   ++ (if decide (deployment_name ≠ "" ∧ env_name ≠ "")
       then [(deployment_name ++ "-" ++ env_name ++ ".toml")%string]
       else []))%list.

(** The documents found under the given names, in order; names with no file
    are skipped. *)
Fixpoint documents (fs : string → file) (paths : list string)
    : list (list obj * gmap string val) :=
  match paths with
  | [] => []
  | p :: ps =>
      match fs p with
      | Document objs top => (objs, top) :: documents fs ps
      | _ => documents fs ps
      end
  end.

(** The value the last document that has key [k] gives it, with the objects
    of that document. *)
Fixpoint last_defining (docs : list (list obj * gmap string val)) (k : string)
    : option (list obj * val) :=
  match docs with
  | [] => None
  | (objs, top) :: rest =>
      match last_defining rest k with
      | Some x => Some x
      | None => (λ v, (objs, v)) <$> top !! k
      end
  end.

(** The objects [objs] sit in the store from address [n] on. *)
Definition placed_at (n : nat) (objs : list obj) (h : heap) : Prop :=
  ∀ j o, objs !! j = Some o → h !! (n + j) = Some (shift_obj n o).

(** ** Vocabulary for what a call leaves untouched *)

(** A value that refers to no object below address [n]. *)
Definition fresh (n : nat) (v : val) : Prop :=
  match v with
  | VRef l => (n ≤ l)%nat
  | _ => True
  end.

Definition obj_fresh (n : nat) (o : obj) : Prop :=
  match o with
  | ODict d => map_Forall (λ _, fresh n) d
  | OList xs => Forall (fresh n) xs
  end.

(** The objects from address [n] on refer to no object below [n]. *)
Definition closed_from (n : nat) (h : heap) : Prop :=
  (n ≤ length h)%nat ∧ ∀ l o, (n ≤ l)%nat → h !! l = Some o → obj_fresh n o.

(** The store a call leaves behind, whether it returns or raises. *)
Definition heap_of {A} (r : result A) : heap :=
  match r with
  | Ok _ h => h
  | Raise _ h => h
  end.


(** [c] leaves the first [n] objects of the store as they are, and what it
    returns satisfies [Q]. *)
Definition keeps (n : nat) {A} (c : M A) (Q : A → Prop) : Prop :=
  ∀ h, closed_from n h →
    take n (heap_of (c h)) = take n h
    ∧ closed_from n (heap_of (c h))
    ∧ match c h with
      | Ok a _ => Q a
      | Raise _ _ => True
      end.

(** [c] only adds objects to the store: whatever was there stays as it
    was. *)
Definition grows {A} (c : M A) : Prop :=
  ∀ h, h `prefix_of` heap_of (c h).

(** ** Vocabulary for stack names and the model *)

(** The id a stack descriptor carries when it is a string; a descriptor
    without one counts as "default". *)
Definition id_field (d : gmap string val) : option string :=
  match d !! "id" with
  | None => Some "default"
  | Some (VStr s) => Some s
  | Some _ => None
  end.

(** What the loop of [set_stack_names] keeps true of the store while it
    derives names: the descriptors stay descriptors with a string id, and
    the descriptor [vi] either has the name [name] or, as long as it has not
    been visited ([visited = false]), no name. *)
Definition names_derived (vs : val) (xs : list val) (vo vi : val)
    (sid name : string) (visited : bool) (g : heap) : Prop :=
  list_at g vs = Some xs
  ∧ is_Some (dict_at g vo)
  ∧ (∀ x, x ∈ xs → ∃ dx, dict_at g x = Some dx ∧ is_Some (id_field dx))
  ∧ ∃ dt, dict_at g vi = Some dt ∧ id_field dt = Some sid
          ∧ (dt !! "name" = Some (VStr name)
             ∨ (visited = false ∧ explicit dt "name" = None)).






(** ** More sample inputs

    A configuration file [examples.toml] with the table [main] holding
    [topic_name = "example-topic"]; no other file exists. *)
Definition examples_fs (path : string) : file :=
  if String.eqb path "examples.toml"
  then Document [ODict {[ "topic_name" := VStr "example-topic" ]}]
                {[ "main" := VRef 0 ]}
  else Missing.

(** The options [{"deployment_name": "examples", "context": {"stage": "dev"}}]. *)
Definition examples_heap : heap :=
  [ODict {[ "deployment_name" := VStr "examples"; "context" := VRef 1 ]};
   ODict {[ "stage" := VStr "dev" ]}].

(** A file system whose only file, [examples.toml], does not parse. *)
Definition broken_fs (path : string) : file :=
  if String.eqb path "examples.toml" then Malformed else Missing.



(** A processor that always fails. *)
Definition failing_processor (options : val) : M val := raise Unmodelled.


(** * Proofs *)

(** ** Running the monad *)

Lemma bind_Ok {A B} (c : M A) (k : A → M B) h a h' :
  c h = Ok a h' → bind c k h = k a h'.
Proof. unfold bind. by intros ->. Qed.

Lemma bind_Raise {A B} (c : M A) (k : A → M B) h e h' :
  c h = Raise e h' → bind c k h = Raise e h'.
Proof. unfold bind. by intros ->. Qed.

Lemma bind_Ok_inv {A B} (c : M A) (k : A → M B) h b h'' :
  bind c k h = Ok b h'' → ∃ a h', c h = Ok a h' ∧ k a h' = Ok b h''.
Proof. unfold bind. destruct (c h) as [a h'|]; [eauto | done]. Qed.

Lemma py_get_dict h l d k dflt :
  h !! l = Some (ODict d) →
  py_get (VRef l) k dflt h = Ok (default dflt (d !! k)) h.
Proof. unfold py_get. by intros ->. Qed.

Lemma py_getitem_dict h l d k :
  h !! l = Some (ODict d) →
  py_getitem (VRef l) k h =
    match d !! k with Some v => Ok v h | None => Raise (KeyError k) h end.
Proof. unfold py_getitem. by intros ->. Qed.

Lemma py_setitem_dict h l d k v :
  h !! l = Some (ODict d) →
  py_setitem (VRef l) k v h = Ok tt (<[l := ODict (<[k := v]> d)]> h).
Proof. unfold py_setitem. by intros ->. Qed.

Lemma dict_at_Some h v d :
  dict_at h v = Some d ↔ ∃ l, v = VRef l ∧ h !! l = Some (ODict d).
Proof.
  unfold dict_at. split.
  - destruct v as [| | |l]; try done.
    destruct (h !! l) as [[d'|]|] eqn:E; try done.
    intros [= ->]. eauto.
  - intros (l & -> & ->). done.
Qed.

Lemma list_at_Some h v xs :
  list_at h v = Some xs ↔ ∃ l, v = VRef l ∧ h !! l = Some (OList xs).
Proof.
  unfold list_at. split.
  - destruct v as [| | |l]; try done.
    destruct (h !! l) as [[|xs']|] eqn:E; try done.
    intros [= ->]. eauto.
  - intros (l & -> & ->). done.
Qed.

(** ** Stack names *)

Lemma py_eq_VStr s t : py_eq (VStr s) (VStr t) = bool_decide (s = t).
Proof. unfold py_eq. apply bool_decide_ext. split; [by intros [= ->] | by intros ->]. Qed.

(** C3. On every triple of strings [_make_stack_name] returns the name the
    four-branch rule gives: the prefix when the id is "default" and the
    prefix is non-empty, else the id when the prefix is empty, else
    "prefix-id" when the environment name is empty, else "prefix-id-env";
    the four sample triples of the specification give "stackid", "test",
    "test-test2" and "test-test2-test3". *)
Theorem make_stack_name_four_branches :
  (∀ prefix id env h,
     _make_stack_name (VStr prefix) (VStr id) (VStr env) h
     = Ok (VStr (stack_name_rule prefix id env)) h) ∧
  (∀ h, _make_stack_name (VStr "") (VStr "stackid") (VStr "") h
        = Ok (VStr "stackid") h) ∧
  (∀ h, _make_stack_name (VStr "test") (VStr "default") (VStr "") h
        = Ok (VStr "test") h) ∧
  (∀ h, _make_stack_name (VStr "test") (VStr "test2") (VStr "") h
        = Ok (VStr "test-test2") h) ∧
  (∀ h, _make_stack_name (VStr "test") (VStr "test2") (VStr "test3") h
        = Ok (VStr "test-test2-test3") h).
Proof.
  split; [|by repeat split].
  intros prefix id env h.
  unfold _make_stack_name, stack_name_rule, py_ne.
  rewrite !py_eq_VStr.
  destruct (decide (id = "default")) as [Hid|Hid];
    [rewrite (bool_decide_eq_true_2 _ Hid)
    |rewrite (bool_decide_eq_false_2 _ Hid)];
  (destruct (decide (prefix = "")) as [Hp|Hp];
    [rewrite !(bool_decide_eq_true_2 _ Hp)
    |rewrite !(bool_decide_eq_false_2 _ Hp)]);
  (destruct (decide (env = "")) as [He|He];
    [rewrite ?(bool_decide_eq_true_2 _ He)
    |rewrite ?(bool_decide_eq_false_2 _ He)]);
  simpl;
  (destruct (decide (id = "default" ∧ prefix ≠ "")) as [[? ?]|Hn];
    [|try (exfalso; apply Hn; by split)]);
  try done.
Qed.

(** ** The context accessor *)

Lemma context_walk_nested ks : ∀ v h,
  mappings_along h v ks = true →
  context_walk ks v h = Ok (default VNone (nested_lookup h v ks)) h.
Proof.
  induction ks as [|k ks IH]; intros v h Hm; [done|].
  simpl in *. unfold is_None in *.
  destruct (decide (v = VNone)) as [->|Hv]; [done|].
  rewrite (bool_decide_eq_false_2 _ Hv) in Hm |- *.
  destruct (dict_at h v) as [d|] eqn:Hd; [|done].
  apply dict_at_Some in Hd as (l & -> & Hl).
  rewrite (bind_Ok _ _ _ _ _ (py_get_dict h l d k VNone Hl)).
  destruct (d !! k) as [v'|] eqn:Hk; simpl.
  - by apply IH.
  - by destruct ks.
Qed.

(** C4, as amended.  For every scope and every non-empty key path along
    which each value reached while keys remain is a mapping or [None], the
    accessor returns the nested value when every key is present and [None]
    as soon as one is absent; a single key returns the scope's context entry
    or [None]. *)
Theorem get_context_data_nested `{Construct T} (scope : T) k0 ks h :
  mappings_along h (try_get_context scope k0) ks = true →
  get_context_data scope (KList (k0 :: ks)) h
  = Ok (default VNone (nested_lookup h (try_get_context scope k0) ks)) h
  ∧ get_context_data scope (KStr k0) h
    = Ok (default VNone (node_context scope !! k0)) h.
Proof.
  intros Hm. split; [|done].
  simpl. by apply context_walk_nested.
Qed.

Lemma get_context_data_nested_witness :
  mappings_along test_context_heap
    (try_get_context test_context_app "config2") ["subconfig1"] = true
  ∧ get_context_data test_context_app (KList ["config2"; "subconfig1"])
      test_context_heap
    = Ok (VStr "subvalue1") test_context_heap
  ∧ get_context_data test_context_app (KStr "config3") test_context_heap
    = Ok VNone test_context_heap.
Proof.
  split; [reflexivity|].
  split; [|reflexivity].
  exact (proj1 (get_context_data_nested test_context_app "config2"
                  ["subconfig1"] test_context_heap eq_refl)).
Defined.

(** C4, as stated, fails: in the test context the path
    ["config1", "subconfig1"] has its second key absent ("config1" holds a
    string, not a mapping), yet the accessor raises instead of returning
    [None]. *)
Lemma get_context_data_scalar_level :
  nested_lookup test_context_heap
    (try_get_context test_context_app "config1") ["subconfig1"] = None
  ∧ get_context_data test_context_app (KList ["config1"; "subconfig1"])
      test_context_heap
    = Raise AttributeError test_context_heap
  ∧ get_context_data test_context_app (KList ["config1"; "subconfig1"])
      test_context_heap
    ≠ Ok VNone test_context_heap.
Proof. split; [reflexivity|]. split; [reflexivity|]. discriminate. Qed.

(** C10.  A key list is indexed at 0 before anything else: on the empty
    list the accessor raises [IndexError], whatever the scope, and does not
    return [None]. *)
Theorem get_context_data_empty_list `{Construct T} (scope : T) h :
  get_context_data scope (KList []) h = Raise IndexError h
  ∧ get_context_data scope (KList []) h ≠ Ok VNone h.
Proof. split; [reflexivity | discriminate]. Qed.

(** ** Inversion of the primitives *)

Lemma py_get_Ok_inv o k dflt h v h1 :
  py_get o k dflt h = Ok v h1 →
  h1 = h ∧ ∃ d, dict_at h o = Some d ∧ v = default dflt (d !! k).
Proof.
  unfold py_get, dict_at. destruct o as [| | |l]; try done.
  destruct (h !! l) as [[d|]|]; try done. intros [= <- <-]. eauto.
Qed.

Lemma py_getitem_Ok_inv o k h v h1 :
  py_getitem o k h = Ok v h1 →
  h1 = h ∧ ∃ d, dict_at h o = Some d ∧ d !! k = Some v.
Proof.
  unfold py_getitem, dict_at. destruct o as [| | |l]; try done.
  destruct (h !! l) as [[d|]|]; try done.
  destruct (d !! k) as [v'|] eqn:Hk; try done. intros [= <- <-]. eauto.
Qed.

Lemma py_items_Ok_inv o h d h1 :
  py_items o h = Ok d h1 → h1 = h ∧ dict_at h o = Some d.
Proof.
  unfold py_items, dict_at. destruct o as [| | |l]; try done.
  destruct (h !! l) as [[d'|]|]; try done. by intros [= <- <-].
Qed.

Lemma py_iter_list h v xs :
  list_at h v = Some xs → py_iter v h = Ok xs h.
Proof. intros (l & -> & Hl)%list_at_Some. unfold py_iter. by rewrite Hl. Qed.

Lemma dict_at_app h ext v d :
  dict_at h v = Some d → dict_at (h ++ ext)%list v = Some d.
Proof.
  intros (l & -> & Hl)%dict_at_Some. unfold dict_at.
  by rewrite (lookup_app_l_Some _ _ _ _ Hl).
Qed.

Lemma list_at_app h ext v xs :
  list_at h v = Some xs → list_at (h ++ ext)%list v = Some xs.
Proof.
  intros (l & -> & Hl)%list_at_Some. unfold list_at.
  by rewrite (lookup_app_l_Some _ _ _ _ Hl).
Qed.

Lemma py_get_dict_at h o d k dflt :
  dict_at h o = Some d → py_get o k dflt h = Ok (default dflt (d !! k)) h.
Proof. intros (l & -> & Hl)%dict_at_Some. by apply py_get_dict. Qed.

(** ** The model builder *)

(** C2, as amended.  The deployment name is read after the option
    processors have run: when the record they return lacks it,
    [init_ias_model] raises [KeyError] on that key, in the store the
    processors left behind. *)
Theorem init_ias_model_missing_deployment_name ps options h o' h' d' :
  apply_processors ps options h = Ok o' h' →
  dict_at h' o' = Some d' →
  d' !! "deployment_name" = None →
  init_ias_model options ps h = Raise (KeyError "deployment_name") h'.
Proof.
  intros Hps (l & -> & Hl)%dict_at_Some Hk.
  unfold init_ias_model. rewrite (bind_Ok _ _ _ _ _ Hps).
  apply bind_Raise. by rewrite (py_getitem_dict _ _ _ _ Hl), Hk.
Qed.

Lemma init_ias_model_missing_deployment_name_witness :
  ∃ o' h' d',
    apply_processors [simple_defaults empty_environ] (VRef 0) [ODict ∅]
    = Ok o' h'
    ∧ dict_at h' o' = Some d'
    ∧ d' !! "deployment_name" = None
    ∧ init_ias_model (VRef 0) [simple_defaults empty_environ] [ODict ∅]
      = Raise (KeyError "deployment_name") h'
    ∧ h' ≠ [ODict ∅].
Proof.
  eexists _, _, _.
  split; [reflexivity|]. split; [reflexivity|]. split; [reflexivity|].
  split; [|discriminate].
  exact (init_ias_model_missing_deployment_name
           [simple_defaults empty_environ] (VRef 0) [ODict ∅] _ _ _
           eq_refl eq_refl eq_refl).
Defined.

(** C2, as stated, fails: the options record [{}] has no deployment name,
    yet with a processor that supplies one [init_ias_model] raises nothing
    and builds a model under the supplied name. *)
Lemma init_ias_model_name_supplied_by_processor :
  dict_at [ODict ∅] (VRef 0) = Some ∅
  ∧ (∅ : gmap string val) !! "deployment_name" = None
  ∧ ∃ m h',
      init_ias_model (VRef 0) [supply_deployment_name] [ODict ∅] = Ok m h'
      ∧ deployment_name m = VStr "late".
Proof.
  split; [reflexivity|]. split; [reflexivity|].
  eexists _, _. split; reflexivity.
Qed.

Lemma dict_at_prefix h h1 v d :
  dict_at h v = Some d → h `prefix_of` h1 → dict_at h1 v = Some d.
Proof. intros Hd [ext ->]. by apply dict_at_app. Qed.

Lemma apply_stack_tags_Ok_inv st tags h st' h1 :
  _apply_stack_tags st tags h = Ok st' h1 →
  h1 = h ∧ stack_name st' = stack_name st ∧ node_id st' = node_id st.
Proof.
  unfold _apply_stack_tags.
  intros (items & h' & [-> _]%py_items_Ok_inv & [= <- <-])%bind_Ok_inv.
  split; [done|].
  apply (map_fold_weak_ind
           (λ r _, stack_name r = stack_name st ∧ node_id r = node_id st));
    [done|].
  intros k v m r _ [Hn Hi]. done.
Qed.

Lemma cdk_Stack_Ok_inv app id name env h st h1 :
  cdk_Stack app id name env h = Ok st h1 →
  h1 = h ∧ id = VStr (node_id st) ∧ stack_name st = name.
Proof.
  unfold cdk_Stack. destruct id as [|i| |]; try done.
  by intros [= <- <-].
Qed.

(** What the loop over the stack descriptors leaves in [stacks]: an id no
    descriptor carries keeps its entry, and a descriptor without a name that
    is the last one with its id leaves a stack named after the id. *)
Lemma build_stacks_spec options app env h0 xs : ∀ acc h1 m h2,
  build_stacks options app env xs acc h1 = Ok m h2 →
  h0 `prefix_of` h1 →
  (∀ j vj, xs !! j = Some vj → is_Some (dict_at h0 vj)) →
  (∀ sid,
     (∀ j vj dj, xs !! j = Some vj → dict_at h0 vj = Some dj →
                 dj !! "id" ≠ Some (VStr sid)) →
     m !! sid = acc !! sid)
  ∧ (∀ i vi di sid,
       xs !! i = Some vi → dict_at h0 vi = Some di →
       di !! "id" = Some (VStr sid) → di !! "name" = None →
       (∀ j vj dj, i < j → xs !! j = Some vj → dict_at h0 vj = Some dj →
                   dj !! "id" ≠ Some (VStr sid)) →
       ∃ st, m !! sid = Some st ∧ stack_name st = VStr sid).
Proof.
  induction xs as [|stack_info rest IH]; intros acc h1 m h2 Hrun Hpre Hwf.
  { simpl in Hrun. injection Hrun as <- <-. split; [done|].
    intros i vi di sid Hi. by rewrite lookup_nil in Hi. }
  simpl in Hrun.
  apply bind_Ok_inv in Hrun as (stack_id & ? & [-> (d1 & Hd1 & Hid)]%py_getitem_Ok_inv & Hrun).
  apply bind_Ok_inv in Hrun as (name & ? & [-> (d1' & Hd1' & Hname)]%py_get_Ok_inv & Hrun).
  apply bind_Ok_inv in Hrun as (st0 & ? & [-> [Hsid Hst0]]%cdk_Stack_Ok_inv & Hrun).
  apply bind_Ok_inv in Hrun as (empty & h1' & Halloc & Hrun).
  injection Halloc as <- <-.
  apply bind_Ok_inv in Hrun as (tags & ? & [-> _]%py_get_Ok_inv & Hrun).
  apply bind_Ok_inv in Hrun as (st & ? & [-> [Hst Hnid]]%apply_stack_tags_Ok_inv & Hrun).
  destruct (Hwf 0 stack_info eq_refl) as [d0 Hd0].
  pose proof (dict_at_prefix _ _ _ _ Hd0 Hpre) as Hd0'.
  assert (d1 = d0) as -> by congruence.
  assert (d1' = d0) as -> by congruence.
  assert (h0 `prefix_of` (h1 ++ [ODict ∅])%list) as Hpre'
    by (etrans; [exact Hpre | by apply prefix_app_r]).
  destruct (IH _ _ _ _ Hrun Hpre' (λ j, Hwf (S j))) as [IH1 IH2].
  split.
  - intros sid Hno.
    rewrite IH1 by (intros j; apply (Hno (S j))).
    apply lookup_insert_ne. intros Heq.
    apply (Hno 0 stack_info d0 eq_refl Hd0). congruence.
  - intros [|i] vi di sid Hi Hdi Hdid Hdname Hlater.
    + injection Hi as <-. assert (di = d0) as -> by congruence.
      exists st. split.
      * rewrite IH1 by (intros j vj dj; apply (Hlater (S j)); lia).
        assert (node_id st = sid) as <- by congruence.
        apply lookup_insert_eq.
      * rewrite Hst, Hst0, Hname, Hdname. simpl. congruence.
    + apply (IH2 i vi di sid Hi Hdi Hdid Hdname).
      intros j vj dj Hj. apply (Hlater (S j)). lia.
Qed.

(** C9.  A stack descriptor that has no name when the model is built (every
    descriptor of the list being a mapping, and no later one carrying the
    same id) yields a stack whose name is its id. *)
Theorem init_ias_model_name_defaults_to_id
    ps options h o' h' d vs xs i vi di sid m h'' :
  apply_processors ps options h = Ok o' h' →
  dict_at h' o' = Some d →
  d !! "stacks" = Some vs →
  list_at h' vs = Some xs →
  (∀ j vj, xs !! j = Some vj → is_Some (dict_at h' vj)) →
  xs !! i = Some vi →
  dict_at h' vi = Some di →
  di !! "id" = Some (VStr sid) →
  di !! "name" = None →
  (∀ j vj dj, i < j → xs !! j = Some vj → dict_at h' vj = Some dj →
              dj !! "id" ≠ Some (VStr sid)) →
  init_ias_model options ps h = Ok m h'' →
  ∃ st, stacks m !! sid = Some st ∧ stack_name st = VStr sid.
Proof.
  intros Hps Hd Hvs Hxs Hwf Hi Hdi Hid Hname Hlater Hrun.
  unfold init_ias_model in Hrun. rewrite (bind_Ok _ _ _ _ _ Hps) in Hrun.
  apply bind_Ok_inv in Hrun as (dn & ? & [-> _]%py_getitem_Ok_inv & Hrun).
  apply bind_Ok_inv in Hrun as (dflt & h1 & Halloc & Hrun).
  injection Halloc as <- <-.
  apply bind_Ok_inv in Hrun as (env & ? & [-> _]%py_get_Ok_inv & Hrun).
  apply bind_Ok_inv in Hrun as (cenv & h2 & Henv & Hrun).
  unfold _create_environment in Henv.
  apply bind_Ok_inv in Henv as (acc & ? & [-> _]%py_get_Ok_inv & Henv).
  apply bind_Ok_inv in Henv as (reg & ? & [-> _]%py_get_Ok_inv & Henv).
  apply bind_Ok_inv in Henv as (nm & ? & [-> _]%py_getitem_Ok_inv & Henv).
  injection Henv as <- <-.
  apply bind_Ok_inv in Hrun as (ctx & ? & [-> _]%py_get_Ok_inv & Hrun).
  apply bind_Ok_inv in Hrun as (a & h3 & Happ & Hrun).
  assert (h3 = (h' ++ [ODict {[ "name" := VStr "" ]}])%list) as ->.
  { unfold cdk_App in Happ. destruct ctx; try by injection Happ.
    all: by apply bind_Ok_inv in Happ
           as (? & ? & [-> _]%py_items_Ok_inv & [= _ <-]). }
  apply bind_Ok_inv in Hrun as (empty & h4 & Halloc & Hrun).
  injection Halloc as <- <-.
  rewrite (bind_Ok _ _ _ _ _
             (py_get_dict_at _ _ _ "stacks" _
                (dict_at_app _ _ _ _ (dict_at_app _ _ _ _ Hd)))) in Hrun.
  rewrite Hvs in Hrun. simpl in Hrun.
  rewrite (bind_Ok _ _ _ _ _
             (py_iter_list _ _ _
                (list_at_app _ _ _ _ (list_at_app _ _ _ _ Hxs)))) in Hrun.
  apply bind_Ok_inv in Hrun as (sts & h5 & Hbuild & [= <- <-]).
  simpl.
  eapply (build_stacks_spec _ _ _ h') in Hbuild as [_ H2]; [|..].
  - by apply (H2 i vi di sid).
  - rewrite <-(assoc_L (++)). by apply prefix_app_r.
  - done.
Qed.

Lemma init_ias_model_name_defaults_to_id_witness :
  ∃ m h'',
    init_ias_model (VRef 0) [] test_unnamed_heap = Ok m h''
    ∧ dict_at test_unnamed_heap (VRef 2) = Some {[ "id" := VStr "test2" ]}
    ∧ ∃ st, stacks m !! "test2" = Some st ∧ stack_name st = VStr "test2".
Proof.
  eexists _, _. split; [reflexivity|]. split; [reflexivity|].
  eapply (init_ias_model_name_defaults_to_id [] (VRef 0) test_unnamed_heap
            (VRef 0) test_unnamed_heap _ (VRef 1) [VRef 2] 0 (VRef 2) _
            "test2");
    try reflexivity.
  - intros [|j] vj Hj; [|done].
    injection Hj as <-. by eexists.
  - intros [|j] vj dj Hlt Hj; [lia | done].
Defined.

(** ** Reading and writing the store *)

Lemma deepcopy_eq v h : deepcopy v h = Ok (shift_val (length h) v) (copy_of h).
Proof. done. Qed.

Lemma length_copy_of h : length (copy_of h) = length h + length h.
Proof. unfold copy_of. by rewrite length_app, length_fmap. Qed.

Lemma lookup_copy_new h l :
  copy_of h !! (length h + l) = shift_obj (length h) <$> h !! l.
Proof.
  unfold copy_of. rewrite lookup_app_r by lia.
  replace (length h + l - length h) with l by lia.
  by rewrite list_lookup_fmap.
Qed.

Lemma lookup_copy_old h l o : h !! l = Some o → copy_of h !! l = Some o.
Proof. apply lookup_app_l_Some. Qed.

Lemma dict_at_copy h v d :
  dict_at h v = Some d →
  dict_at (copy_of h) (shift_val (length h) v) = Some (shift_val (length h) <$> d).
Proof.
  intros (l & -> & Hl)%dict_at_Some. unfold dict_at, shift_val.
  by rewrite lookup_copy_new, Hl.
Qed.

Lemma list_at_copy h v xs :
  list_at h v = Some xs →
  list_at (copy_of h) (shift_val (length h) v) = Some (shift_val (length h) <$> xs).
Proof.
  intros (l & -> & Hl)%list_at_Some. unfold list_at, shift_val.
  by rewrite lookup_copy_new, Hl.
Qed.

Lemma dict_at_alloc h d : dict_at (h ++ [ODict d])%list (VRef (length h)) = Some d.
Proof. unfold dict_at. by rewrite list_lookup_middle. Qed.

Lemma list_at_alloc h xs : list_at (h ++ [OList xs])%list (VRef (length h)) = Some xs.
Proof. unfold list_at. by rewrite list_lookup_middle. Qed.

Lemma dict_at_lt h v d : dict_at h v = Some d → ∃ l, v = VRef l ∧ l < length h.
Proof. intros (l & -> & Hl)%dict_at_Some. exists l. split; [done|]. by eapply lookup_lt_Some. Qed.

Lemma list_at_lt h v xs : list_at h v = Some xs → ∃ l, v = VRef l ∧ l < length h.
Proof. intros (l & -> & Hl)%list_at_Some. exists l. split; [done|]. by eapply lookup_lt_Some. Qed.

Lemma dict_at_store_eq h v d :
  (is_Some (dict_at h v) ∨ is_Some (list_at h v)) →
  dict_at (store v (ODict d) h) v = Some d.
Proof.
  intros [[? (l & -> & Hl)%dict_at_lt]|[? (l & -> & Hl)%list_at_lt]];
    unfold dict_at, store; by rewrite list_lookup_insert_eq.
Qed.

Lemma list_at_store_eq h v xs :
  (is_Some (dict_at h v) ∨ is_Some (list_at h v)) →
  list_at (store v (OList xs) h) v = Some xs.
Proof.
  intros [[? (l & -> & Hl)%dict_at_lt]|[? (l & -> & Hl)%list_at_lt]];
    unfold list_at, store; by rewrite list_lookup_insert_eq.
Qed.

Lemma dict_at_store_ne h v o w : v ≠ w → dict_at (store v o h) w = dict_at h w.
Proof.
  intros Hne. destruct v as [| | |l], w as [| | |l']; try done.
  unfold dict_at, store. rewrite list_lookup_insert_ne; [done|congruence].
Qed.

Lemma list_at_store_ne h v o w : v ≠ w → list_at (store v o h) w = list_at h w.
Proof.
  intros Hne. destruct v as [| | |l], w as [| | |l']; try done.
  unfold list_at, store. rewrite list_lookup_insert_ne; [done|congruence].
Qed.

Lemma py_setitem_dict_at h o d k v :
  dict_at h o = Some d →
  py_setitem o k v h = Ok tt (store o (ODict (<[k := v]> d)) h).
Proof. intros (l & -> & Hl)%dict_at_Some. by apply py_setitem_dict. Qed.

Lemma py_append_list_at h o xs v :
  list_at h o = Some xs →
  py_append o v h = Ok tt (store o (OList (xs ++ [v])) h).
Proof. intros (l & -> & Hl)%list_at_Some. unfold py_append. by rewrite Hl. Qed.

Lemma py_len_list_at h o xs :
  list_at h o = Some xs → py_len o h = Ok (length xs) h.
Proof. intros (l & -> & Hl)%list_at_Some. unfold py_len. by rewrite Hl. Qed.

Lemma dict_list_disjoint h v w d xs :
  dict_at h v = Some d → list_at h w = Some xs → v ≠ w.
Proof.
  intros (l & -> & Hl)%dict_at_Some (l' & -> & Hl')%list_at_Some [= ->]. congruence.
Qed.

Lemma dict_at_fresh h v d : dict_at h v = Some d → v ≠ VRef (length h).
Proof. intros (l & -> & Hl)%dict_at_lt [= ->]. lia. Qed.

Lemma list_at_fresh h v xs : list_at h v = Some xs → v ≠ VRef (length h).
Proof. intros (l & -> & Hl)%list_at_lt [= ->]. lia. Qed.

Lemma stacks_copy h d xs h1 :
  stacks_in h d = Some xs →
  h1 = copy_of h →
  list_at (h1 ++ [OList []])%list
    (default (VRef (length h1)) ((shift_val (length h) <$> d) !! "stacks"))
  = Some (shift_val (length h) <$> xs).
Proof.
  unfold stacks_in. intros Hs ->. rewrite lookup_fmap.
  destruct (d !! "stacks") as [vs|]; simpl.
  - apply list_at_app. by apply list_at_copy.
  - injection Hs as <-. apply list_at_alloc.
Qed.

(** ** Default stack injection *)

(** C7.  On an options record whose stacks list is empty (or absent) the
    processor returns a copy whose stacks list holds exactly one descriptor,
    with id "default", the deployment name as name (the empty string when the
    record has none) and an empty dependency list; on a record with a
    non-empty stacks list it returns the deep copy as it is, stacks list
    included. *)
Theorem set_default_stack_if_no_stacks_spec options h d xs :
  dict_at h options = Some d →
  stacks_in h d = Some xs →
  match xs with
  | [] =>
      ∃ h' stacks stack_info depends_on,
        set_default_stack_if_no_stacks options h
        = Ok (shift_val (length h) options) h'
        ∧ dict_at h' (shift_val (length h) options)
          = Some (<["stacks" := stacks]> (shift_val (length h) <$> d))
        ∧ list_at h' stacks = Some [stack_info]
        ∧ dict_at h' stack_info
          = Some {[ "id" := VStr "default";
                    "name" := default (VStr "")
                                (shift_val (length h) <$> d !! "deployment_name");
                    "depends_on" := depends_on ]}
        ∧ list_at h' depends_on = Some []
  | _ :: _ =>
      ∃ h' stacks,
        set_default_stack_if_no_stacks options h
        = Ok (shift_val (length h) options) h'
        ∧ dict_at h' (shift_val (length h) options)
          = Some (shift_val (length h) <$> d)
        ∧ d !! "stacks" = Some stacks
        ∧ list_at h' (shift_val (length h) stacks)
          = Some (shift_val (length h) <$> xs)
        ∧ ∀ l o, h !! l = Some o →
                 h' !! (length h + l) = Some (shift_obj (length h) o)
  end.
Proof.
  intros Hd Hs.
  pose proof (dict_at_copy _ _ _ Hd) as Hd1.
  pose proof (stacks_copy _ _ _ _ Hs eq_refl) as Hs2.
  set (n := length h) in *.
  set (h1 := copy_of h) in *.
  set (new_options := shift_val n options) in *.
  apply (dict_at_app _ [OList []]) in Hd1.
  set (h2 := (h1 ++ [OList []])%list) in *.
  set (stacks := default _ _) in *.
  unfold set_default_stack_if_no_stacks.
  destruct xs as [|x xs];
    rewrite (bind_Ok _ _ _ _ _ (deepcopy_eq _ _));
    fold n h1 new_options;
    rewrite (bind_Ok _ _ h1 (VRef (length h1)) h2 eq_refl);
    rewrite (bind_Ok _ _ _ _ _ (py_get_dict_at _ _ _ "stacks" _ Hd1));
    fold stacks;
    rewrite (bind_Ok _ _ _ _ _ (py_len_list_at _ _ _ Hs2)).
  - rewrite bool_decide_eq_true_2 by done.
    set (deps := VRef (length h2)).
    set (h3 := (h2 ++ [OList []])%list).
    set (name := default (VStr "") (shift_val n <$> d !! "deployment_name")).
    set (D := ({[ "id" := VStr "default"; "name" := name;
                  "depends_on" := deps ]} : gmap string val)).
    set (si := VRef (length h3)).
    set (h4 := (h3 ++ [ODict D])%list).
    assert (Hd3 : dict_at h3 new_options = Some (shift_val n <$> d))
      by (by apply dict_at_app).
    assert (Hs3 : list_at h3 stacks = Some []) by (by apply list_at_app).
    assert (Hd4 : dict_at h4 new_options = Some (shift_val n <$> d))
      by (by apply dict_at_app).
    assert (Hs4 : list_at h4 stacks = Some []) by (by apply list_at_app).
    assert (Hdeps4 : list_at h4 deps = Some [])
      by (apply list_at_app, list_at_alloc).
    assert (Hsi4 : dict_at h4 si = Some D) by apply dict_at_alloc.
    assert (Hne1 : stacks ≠ new_options)
      by (intros Heq; symmetry in Heq; revert Heq;
          by eapply dict_list_disjoint).
    assert (Hne2 : new_options ≠ si) by (by eapply dict_at_fresh).
    assert (Hne3 : stacks ≠ si) by (by eapply list_at_fresh).
    assert (Hne4 : new_options ≠ deps) by (by eapply dict_list_disjoint).
    assert (Hne5 : stacks ≠ deps) by (by eapply list_at_fresh).
    set (h5 := store stacks (OList [si]) h4).
    set (h6 := store new_options
                 (ODict (<["stacks" := stacks]> (shift_val n <$> d))) h5).
    assert (Hbody :
      (let! name := py_get new_options "deployment_name" (VStr "") in
       let! depends_on := new_list [] in
       let! stack_info := new_dict
                            {[ "id" := VStr "default"; "name" := name;
                               "depends_on" := depends_on ]} in
       py_append stacks stack_info ;;
       py_setitem new_options "stacks" stacks) h2 = Ok tt h6).
    { rewrite (bind_Ok _ _ _ _ _
                 (py_get_dict_at _ _ _ "deployment_name" _ Hd1)).
      rewrite lookup_fmap. fold name.
      rewrite (bind_Ok _ _ h2 deps h3 eq_refl).
      rewrite (bind_Ok _ _ h3 si h4 eq_refl).
      rewrite (bind_Ok _ _ _ _ _ (py_append_list_at _ _ _ si Hs4)).
      apply py_setitem_dict_at.
      unfold h5. by rewrite dict_at_store_ne. }
    rewrite (bind_Ok _ _ _ _ _ Hbody).
    exists h6, stacks, si, deps. unfold h6, h5.
    split; [done|]. split; [|split; [|split]].
    + apply dict_at_store_eq. left. rewrite dict_at_store_ne; eauto.
    + rewrite list_at_store_ne by done.
      apply list_at_store_eq. eauto.
    + by rewrite !dict_at_store_ne.
    + by rewrite !list_at_store_ne.
  - rewrite bool_decide_eq_false_2 by (simpl; lia).
    unfold stacks_in in Hs.
    destruct (d !! "stacks") as [vs|] eqn:Hvs; [|done].
    exists h2, vs. split; [done|]. split; [done|]. split; [done|]. split.
    + apply list_at_app. by apply list_at_copy.
    + intros l o Hl. unfold h2, h1, n. apply lookup_app_l_Some.
      by rewrite lookup_copy_new, Hl.
Qed.

Lemma set_default_stack_if_no_stacks_spec_witness :
  stacks_in test_name_only_heap {[ "deployment_name" := VStr "test" ]}
  = Some []
  ∧ ∃ r h' d' stacks stack_info info,
      set_default_stack_if_no_stacks (VRef 0) test_name_only_heap = Ok r h'
      ∧ dict_at h' r = Some d'
      ∧ d' !! "stacks" = Some stacks
      ∧ list_at h' stacks = Some [stack_info]
      ∧ dict_at h' stack_info = Some info
      ∧ info !! "id" = Some (VStr "default")
      ∧ info !! "name" = Some (VStr "test").
Proof.
  split; [reflexivity|].
  destruct (set_default_stack_if_no_stacks_spec (VRef 0) test_name_only_heap
              {[ "deployment_name" := VStr "test" ]} [] eq_refl eq_refl)
    as (h' & stacks & stack_info & depends_on & Hrun & Hd & Hs & Hi & _).
  eexists (VRef 1), h', _, stacks, stack_info, _.
  split; [exact Hrun|]. split; [exact Hd|].
  split; [apply lookup_insert_eq|]. split; [exact Hs|].
  split; [exact Hi|]. split; reflexivity.
Defined.

(** ** Environment defaulting *)

Lemma store_same h v d : dict_at h v = Some d → store v (ODict d) h = h.
Proof. intros (l & -> & Hl)%dict_at_Some. by apply list_insert_id. Qed.

Lemma fill_step {B} h env e k (t : M unit) a (rest : M B) :
  dict_at h env = Some e →
  (∀ h, t h = py_setitem env k a h) →
  (let! x := py_get env k VNone in
   (if is_None x then t else ret tt) ;; rest) h
  = rest (store env (ODict (<[k := default a (explicit e k)]> e)) h).
Proof.
  intros He Ht.
  rewrite (bind_Ok _ _ _ _ _ (py_get_dict_at _ _ _ k VNone He)).
  unfold explicit. destruct (e !! k) as [v|] eqn:Hk; simpl.
  - destruct (is_None v) eqn:Hv; simpl.
    + erewrite bind_Ok; [done|]. rewrite Ht. by apply py_setitem_dict_at.
    + rewrite insert_id by done. by rewrite store_same.
  - erewrite bind_Ok; [done|]. rewrite Ht. by apply py_setitem_dict_at.
Qed.

Lemma env_copy h d e h1 :
  env_in h d = Some e →
  h1 = copy_of h →
  dict_at (h1 ++ [ODict ∅])%list
    (default (VRef (length h1)) ((shift_val (length h) <$> d) !! "environment"))
  = Some (shift_val (length h) <$> e).
Proof.
  unfold env_in. intros Hs ->. rewrite lookup_fmap.
  destruct (d !! "environment") as [vs|]; simpl.
  - apply dict_at_app. by apply dict_at_copy.
  - injection Hs as <-. rewrite fmap_empty. apply dict_at_alloc.
Qed.

Lemma explicit_fmap n e k :
  explicit (shift_val n <$> e) k = shift_val n <$> explicit e k.
Proof.
  unfold explicit. rewrite lookup_fmap.
  destruct (e !! k) as [[| | |]|]; done.
Qed.

Lemma explicit_insert_ne e k k' v :
  k' ≠ k → explicit (<[k' := v]> e) k = explicit e k.
Proof. intros Hne. unfold explicit. by rewrite lookup_insert_ne. Qed.

Lemma dict_at_store_is_Some h v d w :
  is_Some (dict_at h w) → is_Some (dict_at (store v (ODict d) h) w).
Proof.
  intros Hw. destruct (decide (v = w)) as [->|Hne].
  - rewrite dict_at_store_eq; eauto.
  - by rewrite dict_at_store_ne.
Qed.

(** C6.  The processor returns a copy whose environment descriptor has
    account, region and name set: to the value the input's environment gives
    explicitly when it gives one (whatever CDK_DEFAULT_ACCOUNT and
    CDK_DEFAULT_REGION hold), and otherwise to CDK_DEFAULT_ACCOUNT,
    CDK_DEFAULT_REGION and the empty string. *)
Theorem set_env_account_region_from_env_vars_spec getenv options h d e :
  dict_at h options = Some d →
  env_in h d = Some e →
  ∃ h' env d' e',
    set_env_account_region_from_env_vars getenv options h
    = Ok (shift_val (length h) options) h'
    ∧ dict_at h' (shift_val (length h) options) = Some d'
    ∧ d' !! "environment" = Some env
    ∧ dict_at h' env = Some e'
    ∧ e' !! "account"
      = Some (default (environ_val getenv "CDK_DEFAULT_ACCOUNT")
                (shift_val (length h) <$> explicit e "account"))
    ∧ e' !! "region"
      = Some (default (environ_val getenv "CDK_DEFAULT_REGION")
                (shift_val (length h) <$> explicit e "region"))
    ∧ e' !! "name"
      = Some (default (VStr "") (shift_val (length h) <$> explicit e "name")).
Proof.
  intros Hd He.
  pose proof (dict_at_copy _ _ _ Hd) as Hd1.
  pose proof (env_copy _ _ _ _ He eq_refl) as He2.
  set (n := length h) in *.
  set (h1 := copy_of h) in *.
  set (new_options := shift_val n options) in *.
  apply (dict_at_app _ [ODict ∅]) in Hd1.
  set (h2 := (h1 ++ [ODict ∅])%list) in *.
  set (env := default _ _) in *.
  unfold set_env_account_region_from_env_vars.
  rewrite (bind_Ok _ _ _ _ _ (deepcopy_eq _ _)).
  fold n h1 new_options.
  rewrite (bind_Ok _ _ h1 (VRef (length h1)) h2 eq_refl).
  rewrite (bind_Ok _ _ _ _ _ (py_get_dict_at _ _ _ "environment" _ Hd1)).
  fold env.
  erewrite (fill_step h2 env _ "account" _
             (environ_val getenv "CDK_DEFAULT_ACCOUNT")); [|exact He2|done].
  rewrite explicit_fmap.
  set (e1 := <["account" := _]> _).
  set (h3 := store env (ODict e1) h2).
  assert (He3 : dict_at h3 env = Some e1) by (apply dict_at_store_eq; eauto).
  erewrite (fill_step h3 env _ "region" _
             (environ_val getenv "CDK_DEFAULT_REGION")); [|exact He3|done].
  set (e2 := <["region" := _]> _).
  set (h4 := store env (ODict e2) h3).
  assert (He4 : dict_at h4 env = Some e2) by (apply dict_at_store_eq; eauto).
  erewrite (fill_step h4 env _ "name" _ (VStr "")); [|exact He4|done].
  set (e3 := <["name" := _]> _).
  set (h5 := store env (ODict e3) h4).
  assert (He5 : dict_at h5 env = Some e3) by (apply dict_at_store_eq; eauto).
  assert (is_Some (dict_at h5 new_options)) as [dX HdX]
    by (do 3 apply dict_at_store_is_Some; eauto).
  rewrite (bind_Ok _ _ _ _ _
             (py_setitem_dict_at _ _ _ "environment" env HdX)).
  set (d' := <["environment" := env]> dX).
  set (h6 := store new_options (ODict d') h5).
  assert (Hd6 : dict_at h6 new_options = Some d')
    by (apply dict_at_store_eq; eauto).
  assert (∃ e', dict_at h6 env = Some e'
                ∧ ∀ k, k ≠ "environment" → e' !! k = e3 !! k)
    as (e' & He6 & Hsame).
  { destruct (decide (new_options = env)) as [Heq|Hne].
    - exists d'. split; [by rewrite <-Heq|].
      intros k Hk. unfold d'. rewrite lookup_insert_ne by done.
      rewrite Heq in HdX. congruence.
    - exists e3. split; [|done]. unfold h6. by rewrite dict_at_store_ne. }
  exists h6, env, d', e'.
  split; [done|]. split; [done|]. split; [apply lookup_insert_eq|].
  split; [done|].
  rewrite !Hsame by done. unfold e3, e2, e1.
  rewrite !explicit_insert_ne, !explicit_fmap by done.
  split; [|split].
  - rewrite !lookup_insert_ne by done. apply lookup_insert_eq.
  - rewrite lookup_insert_ne by done. apply lookup_insert_eq.
  - apply lookup_insert_eq.
Qed.

Lemma set_env_account_region_from_env_vars_spec_witness :
  env_in test_named_env_heap
    {[ "deployment_name" := VStr "test"; "environment" := VRef 1 ]}
  = Some {[ "name" := VStr "testenv"; "account" := VStr "234567890123" ]}
  ∧ ∃ r h' env d' e',
      set_env_account_region_from_env_vars test_environ (VRef 0)
        test_named_env_heap = Ok r h'
      ∧ dict_at h' r = Some d'
      ∧ d' !! "environment" = Some env
      ∧ dict_at h' env = Some e'
      ∧ e' !! "account" = Some (VStr "234567890123")
      ∧ e' !! "region" = Some (VStr "eu-north-0")
      ∧ e' !! "name" = Some (VStr "testenv").
Proof.
  split; [reflexivity|].
  destruct (set_env_account_region_from_env_vars_spec test_environ (VRef 0)
              test_named_env_heap _ _ eq_refl eq_refl)
    as (h' & env & d' & e' & Hrun & Hd & Henv & He & Ha & Hr & Hn).
  exists (VRef 2), h', env, d', e'.
  split; [exact Hrun|]. split; [exact Hd|]. split; [exact Henv|].
  split; [exact He|]. split; [exact Ha|]. split; [exact Hr | exact Hn].
Defined.

(** ** Stack name derivation *)

Lemma for_in_invariant {A} (P : heap → Prop) (body : A → M unit) xs :
  (∀ x h h', x ∈ xs → P h → body x h = Ok tt h' → P h') →
  ∀ h h', P h → for_in xs body h = Ok tt h' → P h'.
Proof.
  induction xs as [|x xs IH]; intros Hbody h h' HP Hrun.
  - by injection Hrun as <-.
  - simpl in Hrun.
    apply bind_Ok_inv in Hrun as ([] & h1 & Hx & Hrun).
    apply (IH (λ y g g' Hy, Hbody y g g' (list_elem_of_further _ _ _ Hy)) h1 h');
      [|done].
    apply (Hbody x h h1); [apply list_elem_of_here | done | done].
Qed.

Lemma reads_only_ret {A} (a : A) : reads_only (ret a).
Proof. intros h b h'. unfold ret. by intros [= _ <-]. Qed.

Lemma reads_only_bind {A B} (c : M A) (k : A → M B) :
  reads_only c → (∀ a, reads_only (k a)) → reads_only (bind c k).
Proof.
  intros Hc Hk h b h' (a & h1 & Ha & Hb)%bind_Ok_inv.
  apply Hc in Ha as ->. by apply Hk in Hb.
Qed.

Lemma reads_only_py_str v : reads_only (py_str v).
Proof. destruct v; simpl; try apply reads_only_ret. by intros h a h'. Qed.

Lemma reads_only_make_stack_name p i e : reads_only (_make_stack_name p i e).
Proof.
  unfold _make_stack_name.
  repeat case_match;
    repeat (apply reads_only_bind; [apply reads_only_py_str | intros ?]);
    apply reads_only_ret.
Qed.

Lemma py_setitem_Ok_inv o k v h u h' :
  py_setitem o k v h = Ok u h' →
  ∃ d, dict_at h o = Some d ∧ h' = store o (ODict (<[k := v]> d)) h.
Proof.
  unfold py_setitem, dict_at, store. destruct o as [| | |l]; try done.
  destruct (h !! l) as [[d|]|]; try done. intros [= _ <-]. eauto.
Qed.

Lemma names_kept_store vs vi xs v h w dw k x :
  dict_at h w = Some dw →
  (w = vi → k ≠ "name") →
  names_kept vs vi xs v h →
  names_kept vs vi xs v (store w (ODict (<[k := x]> dw)) h).
Proof.
  intros Hw Hk [Hl (di & Hdi & Hn)]. split.
  - rewrite list_at_store_ne; [done|]. by eapply dict_list_disjoint.
  - destruct (decide (w = vi)) as [->|Hne].
    + exists (<[k := x]> dw). split; [apply dict_at_store_eq; eauto|].
      rewrite lookup_insert_ne by auto. congruence.
    + exists di. by rewrite dict_at_store_ne.
Qed.

Lemma explicit_Some e k v :
  explicit e k = Some v ↔ e !! k = Some v ∧ v ≠ VNone.
Proof.
  unfold explicit, is_None. destruct (e !! k) as [w|].
  - destruct (decide (w = VNone)) as [->|Hw].
    + split; [done | by intros [[= <-] ?]].
    + rewrite (bool_decide_eq_false_2 _ Hw).
      split; [by intros [= <-] | by intros [[= <-] _]].
  - split; [done | by intros [? _]].
Qed.

Lemma shift_val_not_None n v : v ≠ VNone → shift_val n v ≠ VNone.
Proof. by destruct v. Qed.

(** One round of the loop of [set_stack_names] keeps a name that is set. *)
Lemma set_stack_names_body_keeps vs vi xs v dn env_name new_options x h h' :
  v ≠ VNone →
  names_kept vs vi xs v h ∧ is_Some (dict_at h new_options) →
  (let! stack_id := py_get x "id" (VStr "default") in
   let! name := py_get x "name" VNone in
   if is_None name
   then
     let! new_name := _make_stack_name dn stack_id env_name in
     py_setitem x "name" new_name
   else ret tt) h = Ok tt h' →
  names_kept vs vi xs v h' ∧ is_Some (dict_at h' new_options).
Proof.
  intros Hv [Hkept Hopt] Hrun.
  apply bind_Ok_inv in Hrun as (sid & ? & [-> (dx & Hdx & _)]%py_get_Ok_inv & Hrun).
  apply bind_Ok_inv in Hrun as (name & ? & [-> (dx' & Hdx' & Hname)]%py_get_Ok_inv & Hrun).
  assert (dx' = dx) as -> by congruence.
  destruct (is_None name) eqn:Hnone.
  - apply bind_Ok_inv in Hrun as (new & ? & ->%reads_only_make_stack_name & Hrun).
    apply py_setitem_Ok_inv in Hrun as (dx'' & Hdx'' & ->).
    assert (dx'' = dx) as -> by congruence.
    split; [|by apply dict_at_store_is_Some].
    apply names_kept_store; [done| |done].
    intros ->. exfalso.
    destruct Hkept as [_ (di & Hdi & Hn)].
    assert (di = dx) as -> by congruence.
    rewrite Hn in Hname. simpl in Hname. subst name.
    unfold is_None in Hnone. by apply bool_decide_eq_true in Hnone.
  - unfold ret in Hrun. by injection Hrun as <-.
Qed.

(** C8.  Whenever [set_stack_names] returns, a stack descriptor of the input
    whose name is set explicitly (present and not [None]) has, in the
    returned record's stacks list, a copy at the same position that carries
    the same name. *)
Theorem set_stack_names_keeps_explicit_name options h d vs xs i vi di v r h' :
  dict_at h options = Some d →
  d !! "stacks" = Some vs →
  list_at h vs = Some xs →
  xs !! i = Some vi →
  dict_at h vi = Some di →
  explicit di "name" = Some v →
  set_stack_names options h = Ok r h' →
  ∃ d' di',
    r = shift_val (length h) options
    ∧ dict_at h' r = Some d'
    ∧ d' !! "stacks" = Some (shift_val (length h) vs)
    ∧ list_at h' (shift_val (length h) vs) = Some (shift_val (length h) <$> xs)
    ∧ (shift_val (length h) <$> xs) !! i = Some (shift_val (length h) vi)
    ∧ dict_at h' (shift_val (length h) vi) = Some di'
    ∧ di' !! "name" = Some (shift_val (length h) v).
Proof.
  intros Hd Hvs Hxs Hi Hdi Hv Hrun.
  pose proof (dict_at_copy _ _ _ Hd) as Hd1.
  pose proof (list_at_copy _ _ _ Hxs) as Hxs1.
  pose proof (dict_at_copy _ _ _ Hdi) as Hdi1.
  set (n := length h) in *.
  set (h1 := copy_of h) in *.
  set (new_options := shift_val n options) in *.
  unfold set_stack_names in Hrun.
  rewrite (bind_Ok _ _ _ _ _ (deepcopy_eq _ _)) in Hrun.
  fold n h1 new_options in Hrun.
  rewrite (bind_Ok _ _ _ _ _ (py_get_dict_at _ _ _ "deployment_name" _ Hd1)) in Hrun.
  set (dn := default _ _) in Hrun.
  rewrite (bind_Ok _ _ h1 (VRef (length h1)) (h1 ++ [ODict ∅])%list eq_refl) in Hrun.
  apply (dict_at_app _ [ODict ∅]) in Hd1, Hdi1.
  apply (list_at_app _ [ODict ∅]) in Hxs1.
  set (h2 := (h1 ++ [ODict ∅])%list) in *.
  rewrite (bind_Ok _ _ _ _ _ (py_get_dict_at _ _ _ "environment" _ Hd1)) in Hrun.
  set (env := default _ _) in Hrun.
  apply bind_Ok_inv in Hrun as (env_name & ? & [-> _]%py_get_Ok_inv & Hrun).
  rewrite (bind_Ok _ _ h2 (VRef (length h2)) (h2 ++ [OList []])%list eq_refl) in Hrun.
  apply (dict_at_app _ [OList []]) in Hd1, Hdi1.
  apply (list_at_app _ [OList []]) in Hxs1.
  set (h3 := (h2 ++ [OList []])%list) in *.
  rewrite (bind_Ok _ _ _ _ _ (py_get_dict_at _ _ _ "stacks" _ Hd1)) in Hrun.
  rewrite lookup_fmap, Hvs in Hrun. simpl in Hrun.
  rewrite (bind_Ok _ _ _ _ _ (py_iter_list _ _ _ Hxs1)) in Hrun.
  apply bind_Ok_inv in Hrun as ([] & h4 & Hloop & Hrun).
  apply explicit_Some in Hv as [Hv Hnn].
  apply (shift_val_not_None n) in Hnn.
  assert (names_kept (shift_val n vs) (shift_val n vi) (shift_val n <$> xs)
            (shift_val n v) h4 ∧ is_Some (dict_at h4 new_options))
    as [Hkept [dX HdX]].
  { revert Hloop.
    apply (for_in_invariant
             (λ g, names_kept (shift_val n vs) (shift_val n vi)
                     (shift_val n <$> xs) (shift_val n v) g
                   ∧ is_Some (dict_at g new_options))).
    - intros x g g' _. by apply set_stack_names_body_keeps.
    - split; [|eauto]. split; [done|].
      eexists. split; [done|]. by rewrite lookup_fmap, Hv. }
  rewrite (bind_Ok _ _ _ _ _
             (py_setitem_dict_at _ _ _ "stacks" (shift_val n vs) HdX)) in Hrun.
  unfold ret in Hrun. injection Hrun as <- <-.
  apply (names_kept_store _ _ _ _ _ new_options dX "stacks" (shift_val n vs))
    in Hkept as [Hl (di' & Hdi' & Hn')]; [|done|done].
  exists (<["stacks" := shift_val n vs]> dX), di'.
  split; [done|]. split; [apply dict_at_store_eq; eauto|].
  split; [apply lookup_insert_eq|]. split; [done|].
  split; [by rewrite list_lookup_fmap, Hi|]. done.
Qed.

Lemma set_stack_names_keeps_explicit_name_witness :
  explicit {[ "id" := VStr "test1"; "name" := VStr "test1name" ]} "name"
  = Some (VStr "test1name")
  ∧ ∃ r h' d' di',
      set_stack_names (VRef 0) test_stack_names_heap = Ok r h'
      ∧ dict_at h' r = Some d'
      ∧ d' !! "stacks" = Some (VRef 5)
      ∧ list_at h' (VRef 5) = Some [VRef 6; VRef 7]
      ∧ dict_at h' (VRef 6) = Some di'
      ∧ di' !! "name" = Some (VStr "test1name").
Proof.
  split; [reflexivity|].
  destruct (set_stack_names_keeps_explicit_name (VRef 0) test_stack_names_heap
              _ (VRef 1) _ 0 (VRef 2) _ (VStr "test1name") _ _
              eq_refl eq_refl eq_refl eq_refl eq_refl eq_refl eq_refl)
    as (d' & di' & Hr & Hd & Hs & Hl & _ & Hdi & Hn).
  eexists _, _, d', di'.
  split; [reflexivity|]. split; [exact Hd|]. split; [exact Hs|].
  split; [exact Hl|]. split; [exact Hdi | exact Hn].
Defined.

(** ** The configuration loader *)

Lemma py_ne_VStr s t : py_ne (VStr s) (VStr t) = bool_decide (s ≠ t).
Proof.
  unfold py_ne. rewrite py_eq_VStr.
  destruct (decide (s = t)) as [->|Hne].
  - rewrite bool_decide_eq_true_2 by done. by rewrite bool_decide_eq_false_2 by auto.
  - rewrite bool_decide_eq_false_2 by done. by rewrite bool_decide_eq_true_2 by done.
Qed.

Lemma str_field_default d k s :
  str_field d k = Some s → default (VStr "") (d !! k) = VStr s.
Proof.
  unfold str_field. destruct (d !! k) as [[| | |]|]; simpl; congruence.
Qed.

Lemma env_default h d e :
  env_in h d = Some e →
  dict_at (h ++ [ODict ∅])%list (default (VRef (length h)) (d !! "environment"))
  = Some e.
Proof.
  unfold env_in. destruct (d !! "environment") as [ve|]; simpl.
  - apply dict_at_app.
  - intros [= <-]. apply dict_at_alloc.
Qed.

Lemma config_paths_of_spec options h d e dep env :
  dict_at h options = Some d →
  str_field d "deployment_name" = Some dep →
  env_in h d = Some e →
  str_field e "name" = Some env →
  config_paths_of options h = Ok (candidate_paths dep env) (h ++ [ODict ∅])%list.
Proof.
  intros Hd Hdep He Henv.
  unfold config_paths_of.
  rewrite (bind_Ok _ _ _ _ _ (py_get_dict_at _ _ _ "deployment_name" _ Hd)).
  rewrite (str_field_default _ _ _ Hdep).
  rewrite (bind_Ok _ _ h (VRef (length h)) (h ++ [ODict ∅])%list eq_refl).
  rewrite (bind_Ok _ _ _ _ _
             (py_get_dict_at _ _ _ "environment" _
                (dict_at_app _ [ODict ∅] _ _ Hd))).
  rewrite (bind_Ok _ _ _ _ _
             (py_get_dict_at _ _ _ "name" (VStr "") (env_default _ _ _ He))).
  rewrite (str_field_default _ _ _ Henv).
  rewrite !py_ne_VStr. unfold candidate_paths.
  destruct (decide (env ≠ "")) as [H1|H1], (decide (dep ≠ "")) as [H2|H2];
    rewrite ?(bool_decide_eq_true_2 _ H1), ?(bool_decide_eq_false_2 _ H1),
            ?(bool_decide_eq_true_2 _ H2), ?(bool_decide_eq_false_2 _ H2);
    simpl; destruct (decide (dep ≠ "" ∧ env ≠ "")) as [[? ?]|Hn]; try done;
    exfalso; apply Hn; by split.
Qed.

Lemma py_update_dict_at h dst src d d' :
  dict_at h dst = Some d → dict_at h src = Some d' →
  py_update dst src h = Ok tt (store dst (ODict (d' ∪ d)) h).
Proof.
  intros (l & -> & Hl)%dict_at_Some (l' & -> & Hl')%dict_at_Some.
  unfold py_update. by rewrite Hl, Hl'.
Qed.

Section Loading.

Variable fs : string → file.
Variable cfg : val.

(** Lines 221-225 of [load_toml_config_files], one round of the loop: a
    file that is missing changes nothing. *)
Lemma load_one_missing p g :
  fs p = Missing →
  except_FileNotFoundError_pass
    (let! loaded := toml_load_path fs p in py_update cfg loaded) g
  = Ok tt g.
Proof.
  intros Hp. unfold except_FileNotFoundError_pass, bind, toml_load_path.
  by rewrite Hp.
Qed.

Lemma load_one_document p g objs top c :
  fs p = Document objs top →
  dict_at g cfg = Some c →
  except_FileNotFoundError_pass
    (let! loaded := toml_load_path fs p in py_update cfg loaded) g
  = Ok tt (store cfg (ODict ((shift_val (length g) <$> top) ∪ c))
             (g ++ (shift_obj (length g) <$> objs)
                ++ [ODict (shift_val (length g) <$> top)])%list).
Proof.
  intros Hp Hc. unfold except_FileNotFoundError_pass.
  set (g1 := (g ++ _ ++ _)%list).
  assert (toml_load_path fs p g = Ok (VRef (length g + length objs)) g1) as Hload
    by (unfold toml_load_path; by rewrite Hp).
  rewrite (bind_Ok _ _ _ _ _ Hload).
  erewrite py_update_dict_at; [done|by apply dict_at_app|].
  unfold dict_at, g1. rewrite (assoc_L (++)).
  replace (length g + length objs)
    with (length (g ++ (shift_obj (length g) <$> objs))%list)
    by (by rewrite length_app, length_fmap).
  by rewrite list_lookup_middle.
Qed.

Lemma load_loop paths : ∀ g c,
  dict_at g cfg = Some c →
  Forall (λ p, fs p ≠ Malformed) paths →
  ∃ g' c',
    for_in paths
      (λ config_path,
         except_FileNotFoundError_pass
           (let! loaded := toml_load_path fs config_path in
            py_update cfg loaded)) g
    = Ok tt g'
    ∧ dict_at g' cfg = Some c'
    ∧ (length g ≤ length g')%nat
    ∧ (∀ l, VRef l ≠ cfg → (l < length g)%nat → g' !! l = g !! l)
    ∧ ∀ k, match last_defining (documents fs paths) k with
           | Some (objs, v) =>
               ∃ n, c' !! k = Some (shift_val n v) ∧ placed_at n objs g'
           | None => c' !! k = c !! k
           end.
Proof.
  induction paths as [|p ps IH]; intros g c Hc Hok.
  { exists g, c. by repeat split. }
  apply Forall_cons in Hok as [Hp Hps].
  simpl. destruct (fs p) as [| |objs top] eqn:Hfs; [|done|].
  - destruct (IH g c Hc Hps) as (g' & c' & Hrun & Hc' & Hlen & Hkeep & Hkeys).
    exists g', c'. split; [|done].
    by rewrite (bind_Ok _ _ _ _ _ (load_one_missing p g Hfs)).
  - set (top' := shift_val (length g) <$> top).
    set (g1 := (g ++ (shift_obj (length g) <$> objs) ++ [ODict top'])%list).
    set (g2 := store cfg (ODict (top' ∪ c)) g1).
    destruct (dict_at_lt _ _ _ Hc) as (lc & Hcfg & Hlc).
    assert (Hc2 : dict_at g2 cfg = Some (top' ∪ c)).
    { apply dict_at_store_eq. left. exists c. by apply dict_at_app. }
    assert (Hlen1 : length g2 = length g + length objs + 1).
    { unfold g2, g1, store. rewrite Hcfg, length_insert, !length_app, length_fmap.
      simpl. lia. }
    destruct (IH g2 _ Hc2 Hps) as (g' & c' & Hrun & Hc' & Hlen & Hkeep & Hkeys).
    exists g', c'.
    split; [by rewrite (bind_Ok _ _ _ _ _ (load_one_document p g objs top c Hfs Hc))|].
    split; [done|]. split; [lia|]. split.
    + intros l Hl Hlt. rewrite Hkeep by (done || lia).
      unfold g2, store. rewrite Hcfg. rewrite list_lookup_insert_ne by congruence.
      unfold g1. by rewrite lookup_app_l.
    + intros k. specialize (Hkeys k).
      destruct (last_defining (documents fs ps) k) as [[objs' v]|] eqn:Hlast;
        simpl; rewrite Hlast; [done|].
      rewrite Hkeys, lookup_union. unfold top'. rewrite lookup_fmap.
      destruct (top !! k) as [v|]; simpl.
      * exists (length g). split; [destruct (c !! k); reflexivity|].
        intros j o Hj.
        rewrite Hkeep; [| subst cfg; intros [= ?]; lia |].
        -- unfold g2, store. rewrite Hcfg.
           rewrite list_lookup_insert_ne by lia.
           unfold g1. rewrite lookup_app_r by lia.
           replace (length g + j - length g) with j by lia.
           apply lookup_app_l_Some. by rewrite list_lookup_fmap, Hj.
        -- apply lookup_lt_Some in Hj. lia.
      * by rewrite (left_id_L None _).
Qed.

End Loading.

Lemma context_default h d c :
  context_in h d = Some c →
  dict_at ((h ++ [ODict ∅]) ++ [ODict ∅])%list
    (default (VRef (S (length h))) (d !! "context")) = Some c.
Proof.
  unfold context_in. destruct (d !! "context") as [vc|]; simpl.
  - intros Hc. by do 2 apply dict_at_app.
  - intros [= <-].
    replace (S (length h)) with (length (h ++ [ODict ∅])%list)
      by (rewrite length_app; simpl; lia).
    apply dict_at_alloc.
Qed.

Lemma load_toml_config_files_run fs options h d e dep env c :
  dict_at h options = Some d →
  str_field d "deployment_name" = Some dep →
  env_in h d = Some e →
  str_field e "name" = Some env →
  context_in h d = Some c →
  Forall (λ p, fs p ≠ Malformed) (candidate_paths dep env) →
  ∃ n h' d' c',
    load_toml_config_files fs options h = Ok (shift_val n options) h'
    ∧ (length h ≤ n)%nat
    ∧ dict_at h' (shift_val n options) = Some d'
    ∧ d' !! "context" = Some (default (VRef (S (length h))) (d !! "context"))
    ∧ dict_at h' (default (VRef (S (length h))) (d !! "context")) = Some c'
    ∧ (∀ k, match last_defining (documents fs (candidate_paths dep env)) k with
            | Some (objs, v) =>
                ∃ m, c' !! k = Some (shift_val m v) ∧ placed_at m objs h'
            | None => c' !! k = c !! k
            end)
    ∧ (d !! "context" ≠ Some options →
       ∀ k, k ≠ "context" → d' !! k = shift_val n <$> d !! k)
    ∧ (∀ l o, d !! "context" ≠ Some (VRef l) →
              h !! l = Some o → h' !! l = Some o).
Proof.
  intros Hd Hdep He Henv Hc Hok.
  set (cfg := default (VRef (S (length h))) (d !! "context")).
  set (h0 := ((h ++ [ODict ∅]) ++ [ODict ∅])%list).
  pose proof (context_default _ _ _ Hc) as Hcfg. fold cfg h0 in Hcfg.
  destruct (load_loop fs cfg _ h0 c Hcfg Hok)
    as (g & c' & Hloop & Hc' & Hlen & Hkeep & Hkeys).
  assert (Hlen0 : length h0 = S (S (length h)))
    by (unfold h0; rewrite !length_app; simpl; lia).
  destruct (dict_at_lt _ _ _ Hd) as (lo & -> & Hlo).
  destruct (dict_at_lt _ _ _ Hc') as (lc & Hlc & Hlclt).
  assert (∃ dg, dict_at g (VRef lo) = Some dg
                ∧ (d !! "context" ≠ Some (VRef lo) → dg = d))
    as (dg & Hdg & Hdgd).
  { destruct (decide (VRef lo = cfg)) as [Heq|Hne].
    - exists c'. split; [by rewrite Heq|].
      intros Hno. exfalso. unfold cfg in Heq.
      destruct (d !! "context") as [vc|]; simpl in Heq; [congruence|].
      injection Heq as ->. lia.
    - exists d. split; [|done]. unfold dict_at.
      rewrite Hkeep by (done || lia). unfold h0.
      apply dict_at_Some in Hd as (? & [= <-] & Hl).
      by rewrite (lookup_app_l_Some _ _ _ _ (lookup_app_l_Some _ _ _ _ Hl)). }
  exists (length g), (store (VRef (length g + lo))
                        (ODict (<["context" := cfg]> (shift_val (length g) <$> dg)))
                        (copy_of g)),
         (<["context" := cfg]> (shift_val (length g) <$> dg)), c'.
  assert (Hcfgne : VRef (length g + lo) ≠ cfg) by (rewrite Hlc; intros [= ?]; lia).
  split.
  { unfold load_toml_config_files.
    rewrite (bind_Ok _ _ _ _ _ (config_paths_of_spec _ _ _ _ _ _ Hd Hdep He Henv)).
    rewrite (bind_Ok _ _ (h ++ [ODict ∅])%list
               (VRef (length (h ++ [ODict ∅])%list)) h0); cycle 1.
    { done. }
    rewrite (bind_Ok _ _ h0 cfg h0); cycle 1.
    { rewrite (py_get_dict_at _ _ d); [|by do 2 apply dict_at_app].
      unfold cfg. rewrite length_app. simpl.
      by replace (length h + 1) with (S (length h)) by lia. }
    rewrite (bind_Ok _ _ _ _ _ Hloop).
    rewrite (bind_Ok _ _ _ _ _ (deepcopy_eq _ _)). simpl shift_val.
    rewrite (bind_Ok _ _ _ _ _
               (py_setitem_dict_at _ _ _ "context" cfg
                  (dict_at_copy _ _ _ Hdg))).
    done. }
  split; [lia|].
  split; [apply dict_at_store_eq; left; eexists; by apply (dict_at_copy _ _ _ Hdg)|].
  split; [apply lookup_insert_eq|].
  split; [rewrite dict_at_store_ne by done; by apply dict_at_app|].
  split.
  { intros k. specialize (Hkeys k).
    destruct (last_defining _ k) as [[objs v]|]; [|done].
    destruct Hkeys as (m & Hk & Hpl). exists m. split; [done|].
    intros j o Hj. specialize (Hpl j o Hj).
    unfold store. rewrite list_lookup_insert_ne
      by (apply lookup_lt_Some in Hpl; lia).
    by apply lookup_copy_old. }
  split.
  { intros Hno k Hk. rewrite lookup_insert_ne by done.
    rewrite lookup_fmap. by rewrite (Hdgd Hno). }
  intros l o Hl Hlo'.
  pose proof (lookup_lt_Some _ _ _ Hlo') as Hlt.
  unfold store. rewrite list_lookup_insert_ne by lia.
  apply lookup_copy_old. rewrite Hkeep; [| |lia].
  - unfold h0. by do 2 apply lookup_app_l_Some.
  - unfold cfg. destruct (d !! "context") as [vc|]; simpl; [congruence|].
    intros [= ->]. lia.
Qed.

Lemma for_in_app_Ok {A} (body : A → M unit) xs ys h h1 :
  for_in xs body h = Ok tt h1 →
  for_in (xs ++ ys)%list body h = for_in ys body h1.
Proof.
  revert h. induction xs as [|x xs IH]; intros h Hrun.
  - by injection Hrun as <-.
  - simpl in *. apply bind_Ok_inv in Hrun as ([] & h2 & Hx & Hrun).
    rewrite (bind_Ok _ _ _ _ _ Hx). by apply IH.
Qed.

(** X1.  [load_toml_config_files], when no candidate file is malformed, returns
    a record whose context mapping gives every key the value of the last
    candidate document, in the order environment, deployment,
    deployment-environment, that defines it (with that document's nested
    tables in the store), and keeps the value the input's context had for a
    key no document defines; files that do not exist are skipped. *)
Theorem load_toml_config_files_merges fs options h d e dep env c :
  dict_at h options = Some d →
  str_field d "deployment_name" = Some dep →
  env_in h d = Some e →
  str_field e "name" = Some env →
  context_in h d = Some c →
  Forall (λ p, fs p ≠ Malformed) (candidate_paths dep env) →
  ∃ r h' d' cfg c',
    load_toml_config_files fs options h = Ok r h'
    ∧ dict_at h' r = Some d'
    ∧ d' !! "context" = Some cfg
    ∧ dict_at h' cfg = Some c'
    ∧ ∀ k, match last_defining (documents fs (candidate_paths dep env)) k with
           | Some (objs, v) =>
               ∃ m, c' !! k = Some (shift_val m v) ∧ placed_at m objs h'
           | None => c' !! k = c !! k
           end.
Proof.
  intros Hd Hdep He Henv Hc Hok.
  destruct (load_toml_config_files_run fs _ _ _ _ _ _ _ Hd Hdep He Henv Hc Hok)
    as (n & h' & d' & c' & Hrun & _ & Hd' & Hctx & Hc' & Hkeys & _).
  by eexists (shift_val n options), h', d', _, c'.
Qed.

Lemma load_toml_config_files_merges_witness :
  ∃ r h' d' cfg c',
    load_toml_config_files examples_fs (VRef 0) examples_heap = Ok r h'
    ∧ dict_at h' r = Some d'
    ∧ d' !! "context" = Some cfg
    ∧ dict_at h' cfg = Some c'
    ∧ ∀ k, match last_defining
                   (documents examples_fs (candidate_paths "examples" "")) k with
           | Some (objs, v) =>
               ∃ m, c' !! k = Some (shift_val m v) ∧ placed_at m objs h'
           | None =>
               c' !! k = ({[ "stage" := VStr "dev" ]} : gmap string val) !! k
           end.
Proof.
  apply (load_toml_config_files_merges examples_fs (VRef 0) examples_heap
           _ ∅ "examples" "" _ eq_refl eq_refl eq_refl eq_refl eq_refl).
  repeat constructor; discriminate.
Defined.

(** X2.  [load_toml_config_files] updates the context mapping of its argument in
    place: when the options carry a context, the loaded settings are written
    into that very object, which the returned record then shares; every
    other object of the input store is left as it was. *)
Theorem load_toml_config_files_updates_argument_context
    fs options h d e dep env cfg c k objs v :
  dict_at h options = Some d →
  str_field d "deployment_name" = Some dep →
  env_in h d = Some e →
  str_field e "name" = Some env →
  d !! "context" = Some cfg →
  dict_at h cfg = Some c →
  Forall (λ p, fs p ≠ Malformed) (candidate_paths dep env) →
  last_defining (documents fs (candidate_paths dep env)) k = Some (objs, v) →
  ∃ r h' d' c' m,
    load_toml_config_files fs options h = Ok r h'
    ∧ dict_at h' r = Some d'
    ∧ d' !! "context" = Some cfg
    ∧ dict_at h' cfg = Some c'
    ∧ c' !! k = Some (shift_val m v)
    ∧ ∀ l o, cfg ≠ VRef l → h !! l = Some o → h' !! l = Some o.
Proof.
  intros Hd Hdep He Henv Hcfg Hc Hok Hlast.
  assert (Hctx : context_in h d = Some c) by (unfold context_in; by rewrite Hcfg).
  destruct (load_toml_config_files_run fs _ _ _ _ _ _ _ Hd Hdep He Henv Hctx Hok)
    as (n & h' & d' & c' & Hrun & _ & Hd' & Hctx' & Hc' & Hkeys & _ & Hframe).
  rewrite Hcfg in Hctx', Hc'. simpl in Hctx', Hc'.
  specialize (Hkeys k). rewrite Hlast in Hkeys. destruct Hkeys as (m & Hk & _).
  exists (shift_val n options), h', d', c', m.
  repeat split; try done.
  intros l o Hne. apply Hframe. rewrite Hcfg. congruence.
Qed.

Lemma load_toml_config_files_updates_argument_context_witness :
  dict_at examples_heap (VRef 1) = Some {[ "stage" := VStr "dev" ]}
  ∧ ∃ r h' d' c' m,
      load_toml_config_files examples_fs (VRef 0) examples_heap = Ok r h'
      ∧ dict_at h' r = Some d'
      ∧ d' !! "context" = Some (VRef 1)
      ∧ dict_at h' (VRef 1) = Some c'
      ∧ c' !! "main" = Some (shift_val m (VRef 0))
      ∧ ∀ l o, VRef 1 ≠ VRef l → examples_heap !! l = Some o → h' !! l = Some o.
Proof.
  split; [reflexivity|].
  apply (load_toml_config_files_updates_argument_context
           examples_fs (VRef 0) examples_heap _ ∅ "examples" "" (VRef 1) _
           "main" [ODict {[ "topic_name" := VStr "example-topic" ]}] (VRef 0)
           eq_refl eq_refl eq_refl eq_refl eq_refl eq_refl);
    [repeat constructor; discriminate | reflexivity].
Defined.

(** X3.  A candidate file that exists but does not parse stops
    [load_toml_config_files] with the decoder's error: only a missing file
    is skipped.  The candidates before it have been merged into the context
    mapping by then. *)
Theorem load_toml_config_files_malformed
    fs options h d e dep env c before p after :
  dict_at h options = Some d →
  str_field d "deployment_name" = Some dep →
  env_in h d = Some e →
  str_field e "name" = Some env →
  context_in h d = Some c →
  candidate_paths dep env = (before ++ p :: after)%list →
  Forall (λ p, fs p ≠ Malformed) before →
  fs p = Malformed →
  ∃ h' c',
    load_toml_config_files fs options h = Raise TOMLDecodeError h'
    ∧ dict_at h' (default (VRef (S (length h))) (d !! "context")) = Some c'
    ∧ ∀ k, match last_defining (documents fs before) k with
           | Some (objs, v) =>
               ∃ m, c' !! k = Some (shift_val m v) ∧ placed_at m objs h'
           | None => c' !! k = c !! k
           end.
Proof.
  intros Hd Hdep He Henv Hc Hpaths Hok Hp.
  set (cfg := default (VRef (S (length h))) (d !! "context")).
  set (h0 := ((h ++ [ODict ∅]) ++ [ODict ∅])%list).
  pose proof (context_default _ _ _ Hc) as Hcfg. fold cfg h0 in Hcfg.
  destruct (load_loop fs cfg _ h0 c Hcfg Hok)
    as (g & c' & Hloop & Hc' & _ & _ & Hkeys).
  exists g, c'. split; [|done].
  unfold load_toml_config_files.
  rewrite (bind_Ok _ _ _ _ _ (config_paths_of_spec _ _ _ _ _ _ Hd Hdep He Henv)).
  rewrite (bind_Ok _ _ (h ++ [ODict ∅])%list
             (VRef (length (h ++ [ODict ∅])%list)) h0 eq_refl).
  rewrite (bind_Ok _ _ h0 cfg h0); cycle 1.
  { rewrite (py_get_dict_at _ _ d); [|by do 2 apply dict_at_app].
    unfold cfg. rewrite length_app. simpl.
    by replace (length h + 1) with (S (length h)) by lia. }
  apply bind_Raise. rewrite Hpaths, (for_in_app_Ok _ _ _ _ _ Hloop). simpl.
  apply bind_Raise.
  unfold except_FileNotFoundError_pass, bind, toml_load_path. by rewrite Hp.
Qed.

Lemma load_toml_config_files_malformed_witness :
  ∃ h' c',
    load_toml_config_files broken_fs (VRef 0) examples_heap
    = Raise TOMLDecodeError h'
    ∧ dict_at h' (VRef 1) = Some c'
    ∧ ∀ k, match last_defining (documents broken_fs []) k with
           | Some (objs, v) =>
               ∃ m, c' !! k = Some (shift_val m v) ∧ placed_at m objs h'
           | None =>
               c' !! k = ({[ "stage" := VStr "dev" ]} : gmap string val) !! k
           end.
Proof.
  apply (load_toml_config_files_malformed broken_fs (VRef 0) examples_heap
           _ ∅ "examples" "" _ [] "examples.toml" []
           eq_refl eq_refl eq_refl eq_refl eq_refl eq_refl);
    [constructor | reflexivity].
Defined.

(** ** What a call leaves untouched *)

Lemma keeps_ret n {A} (a : A) (Q : A → Prop) : Q a → keeps n (ret a) Q.
Proof. by intros HQ h Hh. Qed.

Lemma keeps_raise n {A} e (Q : A → Prop) : keeps n (raise e) Q.
Proof. by intros h Hh. Qed.

Lemma keeps_bind n {A B} (c : M A) (k : A → M B) (Q : A → Prop) (R : B → Prop) :
  keeps n c Q → (∀ a, Q a → keeps n (k a) R) → keeps n (bind c k) R.
Proof.
  intros Hc Hk h Hh. unfold bind.
  destruct (Hc h Hh) as (Ht & Hh1 & HQ).
  destruct (c h) as [a h1|e h1]; simpl in *; [|done].
  destruct (Hk a HQ h1 Hh1) as (Ht' & Hh2 & HR).
  split; [congruence | done].
Qed.

Lemma keeps_weaken n {A} (c : M A) (Q R : A → Prop) :
  keeps n c Q → (∀ a, Q a → R a) → keeps n c R.
Proof.
  intros Hc HQR h Hh. destruct (Hc h Hh) as (Ht & Hh1 & HQ).
  split; [done|]. split; [done|]. destruct (c h); auto.
Qed.

(** A step that reads the store and writes nothing. *)
Lemma keeps_pure n {A} (c : M A) (Q : A → Prop) :
  (∀ h, heap_of (c h) = h) →
  (∀ h a h', closed_from n h → c h = Ok a h' → Q a) →
  keeps n c Q.
Proof.
  intros Hpure HQ h Hh. specialize (Hpure h). specialize (HQ h).
  rewrite Hpure. split; [done|]. split; [done|].
  destruct (c h) as [a h'|]; [|done]. by eapply HQ.
Qed.

Lemma closed_from_lookup n h l o :
  closed_from n h → fresh n (VRef l) → h !! l = Some o → obj_fresh n o.
Proof. intros [_ H] Hl. by apply H. Qed.

Lemma closed_from_store n h l o :
  closed_from n h → (n ≤ l)%nat → obj_fresh n o → closed_from n (<[l := o]> h).
Proof.
  intros [Hlen Hobj] Hl Ho. split; [by rewrite length_insert|].
  intros l' o' Hl' Hlook.
  destruct (decide (l = l')) as [<-|Hne].
  - apply list_lookup_insert_Some in Hlook as [(_ & <- & _)|[? _]]; done.
  - rewrite list_lookup_insert_ne in Hlook by done. by eapply Hobj.
Qed.

Lemma closed_from_app n h ext :
  closed_from n h → Forall (obj_fresh n) ext → closed_from n (h ++ ext).
Proof.
  intros [Hlen Hobj] Hext. split; [rewrite length_app; lia|].
  intros l o Hl [Hlook|[_ Hlook]]%lookup_app_Some; [by eapply Hobj|].
  by eapply (Forall_lookup_1 _ _ _ _ Hext).
Qed.

Lemma fresh_le n m v : (n ≤ m)%nat → fresh m v → fresh n v.
Proof. destruct v; simpl; lia. Qed.

Lemma fresh_shift n m v : (n ≤ m)%nat → fresh n (shift_val m v).
Proof. destruct v; simpl; lia. Qed.

Lemma obj_fresh_shift n m o : (n ≤ m)%nat → obj_fresh n (shift_obj m o).
Proof.
  intros Hle. destruct o as [d|xs]; simpl.
  - intros k v. rewrite lookup_fmap. intros (w & _ & ->)%fmap_Some.
    by apply fresh_shift.
  - apply Forall_fmap, Forall_true. intros v. by apply fresh_shift.
Qed.

Lemma closed_from_length h : closed_from (length h) h.
Proof.
  split; [done|]. intros l o Hl Hlook. apply lookup_lt_Some in Hlook. lia.
Qed.

Lemma keeps_py_get n o k dflt :
  fresh n o → fresh n dflt → keeps n (py_get o k dflt) (fresh n).
Proof.
  intros Ho Hd. apply keeps_pure.
  - intros h. unfold py_get. repeat case_match; done.
  - intros h a h' Hh Hrun. unfold py_get in Hrun.
    destruct o as [| | |l]; try done.
    destruct (h !! l) as [[d|]|] eqn:Hl; try done. injection Hrun as <- <-.
    pose proof (closed_from_lookup _ _ _ _ Hh Ho Hl) as Hfr. simpl in Hfr.
    destruct (d !! k) as [v|] eqn:Hk; simpl; [by eapply Hfr | done].
Qed.

Lemma keeps_py_getitem n o k :
  fresh n o → keeps n (py_getitem o k) (fresh n).
Proof.
  intros Ho. apply keeps_pure.
  - intros h. unfold py_getitem. repeat case_match; done.
  - intros h a h' Hh Hrun. unfold py_getitem in Hrun.
    destruct o as [| | |l]; try done.
    destruct (h !! l) as [[d|]|] eqn:Hl; try done.
    destruct (d !! k) as [v|] eqn:Hk; try done. injection Hrun as <- <-.
    pose proof (closed_from_lookup _ _ _ _ Hh Ho Hl) as Hfr. by eapply Hfr.
Qed.

Lemma keeps_py_items n o :
  fresh n o → keeps n (py_items o) (map_Forall (λ _, fresh n)).
Proof.
  intros Ho. apply keeps_pure.
  - intros h. unfold py_items. repeat case_match; done.
  - intros h a h' Hh Hrun. unfold py_items in Hrun.
    destruct o as [| | |l]; try done.
    destruct (h !! l) as [[d|]|] eqn:Hl; try done. injection Hrun as <- <-.
    apply (closed_from_lookup _ _ _ _ Hh Ho Hl).
Qed.

Lemma keeps_py_iter n o :
  fresh n o → keeps n (py_iter o) (Forall (fresh n)).
Proof.
  intros Ho. apply keeps_pure.
  - intros h. unfold py_iter. repeat case_match; done.
  - intros h a h' Hh Hrun. unfold py_iter in Hrun.
    destruct o as [|s| |l]; try done.
    + injection Hrun as <- <-. clear. induction s; simpl; by constructor.
    + destruct (h !! l) as [[d|xs]|] eqn:Hl; try done; injection Hrun as <- <-.
      * apply Forall_fmap, Forall_true. done.
      * apply (closed_from_lookup _ _ _ _ Hh Ho Hl).
Qed.

Lemma keeps_py_len n o : keeps n (py_len o) (λ _, True).
Proof.
  apply keeps_pure; [|done].
  intros h. unfold py_len. repeat case_match; done.
Qed.

Lemma keeps_py_str n v : keeps n (py_str v) (λ _, True).
Proof. apply keeps_pure; [|done]. intros h. by destruct v. Qed.

Lemma keeps_py_setitem n o k v :
  fresh n o → fresh n v → keeps n (py_setitem o k v) (λ _, True).
Proof.
  intros Ho Hv h Hh. unfold py_setitem.
  destruct o as [| | |l]; try done.
  destruct (h !! l) as [[d|]|] eqn:Hl; try done. simpl.
  split; [by apply take_insert_ge|]. split; [|done].
  apply closed_from_store; [done..|].
  apply map_Forall_insert_2; [done|].
  apply (closed_from_lookup _ _ _ _ Hh Ho Hl).
Qed.

Lemma keeps_py_append n o v :
  fresh n o → fresh n v → keeps n (py_append o v) (λ _, True).
Proof.
  intros Ho Hv h Hh. unfold py_append.
  destruct o as [| | |l]; try done.
  destruct (h !! l) as [[|xs]|] eqn:Hl; try done. simpl.
  split; [by apply take_insert_ge|]. split; [|done].
  apply closed_from_store; [done..|].
  apply Forall_app. split; [|by constructor].
  apply (closed_from_lookup _ _ _ _ Hh Ho Hl).
Qed.

Lemma keeps_py_update n dst src :
  fresh n dst → fresh n src → keeps n (py_update dst src) (λ _, True).
Proof.
  intros Hdst Hsrc h Hh. unfold py_update.
  destruct dst as [| | |l]; try done.
  destruct (h !! l) as [[d|]|] eqn:Hl; try done.
  destruct src as [| | |l']; try done.
  destruct (h !! l') as [[d'|]|] eqn:Hl'; try done. simpl.
  split; [by apply take_insert_ge|]. split; [|done].
  apply closed_from_store; [done..|].
  pose proof (closed_from_lookup _ _ _ _ Hh Hdst Hl) as Hd.
  pose proof (closed_from_lookup _ _ _ _ Hh Hsrc Hl') as Hd'.
  intros k v [Hk|[_ Hk]]%lookup_union_Some_raw; [by eapply Hd' | by eapply Hd].
Qed.

Lemma keeps_alloc n o : obj_fresh n o → keeps n (alloc o) (fresh n).
Proof.
  intros Ho h Hh. unfold alloc. simpl. pose proof Hh as [Hlen _].
  split; [by apply take_app_le|]. split; [|done].
  apply closed_from_app; [done | by constructor].
Qed.

Lemma keeps_deepcopy n v : keeps n (deepcopy v) (fresh n).
Proof.
  intros h Hh. unfold deepcopy. simpl. pose proof Hh as [Hlen _].
  split; [by apply take_app_le|]. split; [|by apply fresh_shift].
  apply closed_from_app; [done|].
  apply Forall_fmap, Forall_true. intros o. by apply obj_fresh_shift.
Qed.

Lemma keeps_for_in n {A} (Q : A → Prop) (body : A → M unit) xs :
  (∀ x, Q x → keeps n (body x) (λ _, True)) →
  Forall Q xs →
  keeps n (for_in xs body) (λ _, True).
Proof.
  intros Hbody. induction 1 as [|x xs Hx Hxs IH]; simpl.
  - by apply keeps_ret.
  - eapply keeps_bind; [by apply Hbody | done].
Qed.

Lemma keeps_make_stack_name n p i e :
  keeps n (_make_stack_name p i e) (fresh n).
Proof.
  unfold _make_stack_name.
  repeat case_match;
    repeat (eapply keeps_bind; [apply keeps_py_str | intros ? _]);
    by apply keeps_ret.
Qed.

Lemma keeps_untouched {A} (c : M A) (Q : heap → A → Prop) :
  (∀ h, keeps (length h) c (Q h)) →
  ∀ h, h `prefix_of` heap_of (c h)
       ∧ match c h with
         | Ok a _ => Q h a
         | Raise _ _ => True
         end.
Proof.
  intros Hc h. destruct (Hc h h (closed_from_length h)) as (Ht & _ & Hr).
  rewrite firstn_all in Ht. split; [|done].
  exists (drop (length h) (heap_of (c h))).
  transitivity (take (length h) (heap_of (c h))
                  ++ drop (length h) (heap_of (c h)))%list;
    [by rewrite take_drop | by rewrite Ht].
Qed.

Lemma obj_fresh_empty_dict n : obj_fresh n (ODict ∅).
Proof. apply map_Forall_empty. Qed.

Lemma obj_fresh_empty_list n : obj_fresh n (OList []).
Proof. constructor. Qed.

Lemma keeps_os_getenv n getenv name : keeps n (os_getenv getenv name) (fresh n).
Proof. apply keeps_ret. by destruct (getenv name). Qed.

(** One step of a frame proof: the next primitive of the program, with the
    facts about its arguments taken from the context. *)
Ltac keeps_prim :=
  first
    [ apply keeps_deepcopy
    | apply keeps_os_getenv
    | apply keeps_make_stack_name
    | apply keeps_py_len
    | apply keeps_py_str
    | apply keeps_alloc; first [apply obj_fresh_empty_dict | apply obj_fresh_empty_list]
    | apply keeps_py_get; done
    | apply keeps_py_getitem; done
    | apply keeps_py_items; done
    | apply keeps_py_iter; done
    | apply keeps_py_setitem; done
    | apply keeps_py_append; done
    | apply keeps_py_update; done
    | apply keeps_ret; done ].

Ltac keeps_next := eapply keeps_bind; [keeps_prim | intros ? ?].

Lemma keeps_set_env_account_region_from_env_vars n getenv options :
  keeps n (set_env_account_region_from_env_vars getenv options) (fresh n).
Proof.
  unfold set_env_account_region_from_env_vars, new_dict.
  do 4 keeps_next.
  eapply keeps_bind.
  { case_match; [keeps_next|]; keeps_prim. }
  intros _ _. keeps_next.
  eapply keeps_bind.
  { case_match; [keeps_next|]; keeps_prim. }
  intros _ _. keeps_next.
  eapply keeps_bind.
  { case_match; keeps_prim. }
  intros _ _. keeps_next. keeps_prim.
Qed.

Lemma keeps_set_default_stack_if_no_stacks n options :
  keeps n (set_default_stack_if_no_stacks options) (fresh n).
Proof.
  unfold set_default_stack_if_no_stacks, new_dict, new_list.
  do 4 keeps_next.
  eapply (keeps_bind _ _ _ (λ _, True)); [|intros _ _; keeps_prim].
  case_match; [|keeps_prim].
  do 2 keeps_next.
  eapply keeps_bind.
  { apply keeps_alloc. simpl.
    repeat (apply map_Forall_insert_2; [done|]). apply map_Forall_empty. }
  intros ? ?. keeps_next. keeps_prim.
Qed.

Lemma keeps_set_stack_names n options :
  keeps n (set_stack_names options) (fresh n).
Proof.
  unfold set_stack_names, new_dict, new_list.
  do 8 keeps_next.
  eapply keeps_bind.
  { apply (keeps_for_in n (fresh n)); [|done].
    intros x Hx. do 2 keeps_next.
    case_match; [keeps_next|]; keeps_prim. }
  intros _ _. keeps_next. keeps_prim.
Qed.

Lemma keeps_simple_defaults n getenv options :
  keeps n (simple_defaults getenv options) (fresh n).
Proof.
  unfold simple_defaults.
  eapply keeps_bind; [apply keeps_set_env_account_region_from_env_vars|].
  intros ? _.
  eapply keeps_bind; [apply keeps_set_default_stack_if_no_stacks|].
  intros ? _.
  eapply keeps_bind; [apply keeps_set_stack_names|].
  intros ? ?. keeps_prim.
Qed.

Lemma keeps_toml_load_path n fs path :
  keeps n (toml_load_path fs path) (fresh n).
Proof.
  unfold toml_load_path. destruct (fs path) as [| |objs top]; try apply keeps_raise.
  intros h Hh. simpl. pose proof Hh as [Hlen _].
  split; [by apply take_app_le|]. split; [|lia].
  apply closed_from_app; [done|]. apply Forall_app. split.
  - apply Forall_fmap, Forall_true. intros o. by apply obj_fresh_shift.
  - constructor; [|done]. by apply (obj_fresh_shift n (length h) (ODict top)).
Qed.

Lemma keeps_except_FileNotFoundError_pass n c :
  keeps n c (λ _, True) → keeps n (except_FileNotFoundError_pass c) (λ _, True).
Proof.
  intros Hc h Hh. destruct (Hc h Hh) as (Ht & Hh1 & _).
  unfold except_FileNotFoundError_pass.
  destruct (c h) as [[] h'|e h']; [done|].
  by destruct e.
Qed.

Lemma keeps_config_paths_of n options :
  fresh n options → keeps n (config_paths_of options) (λ _, True).
Proof.
  intros Ho. unfold config_paths_of, new_dict.
  do 4 keeps_next.
  eapply (keeps_bind _ _ _ (λ _, True)).
  { case_match; [keeps_next|]; keeps_prim. }
  intros ? _.
  eapply (keeps_bind _ _ _ (λ _, True)).
  { case_match; [keeps_next|]; keeps_prim. }
  intros ? _.
  eapply (keeps_bind _ _ _ (λ _, True)).
  { case_match; [do 2 keeps_next|]; keeps_prim. }
  intros ? _. keeps_prim.
Qed.

Lemma keeps_load_toml_config_files n fs options :
  fresh n options → keeps n (load_toml_config_files fs options) (fresh n).
Proof.
  intros Ho. unfold load_toml_config_files, new_dict.
  eapply keeps_bind; [by apply keeps_config_paths_of|]. intros paths _.
  do 2 keeps_next.
  eapply keeps_bind.
  { apply (keeps_for_in n (λ _, True)); [|by apply Forall_true].
    intros p _. apply keeps_except_FileNotFoundError_pass.
    eapply keeps_bind; [apply keeps_toml_load_path|].
    intros ? ?. keeps_prim. }
  intros _ _. do 2 keeps_next. keeps_prim.
Qed.

Lemma keeps_simple_config_defaults n getenv fs options :
  keeps n (simple_config_defaults getenv fs options) (fresh n).
Proof.
  unfold simple_config_defaults.
  eapply keeps_bind; [apply keeps_simple_defaults|]. intros ? ?.
  eapply keeps_bind; [by apply keeps_load_toml_config_files|].
  intros ? ?. keeps_prim.
Qed.

(** X4.  [set_env_account_region_from_env_vars] works on a copy: on every
    argument and store, whether it returns or raises, the objects of the
    store it was called in are as they were, and the record it returns is a
    new object. *)
Theorem set_env_account_region_from_env_vars_leaves_input getenv options h :
  h `prefix_of` heap_of (set_env_account_region_from_env_vars getenv options h)
  ∧ match set_env_account_region_from_env_vars getenv options h with
    | Ok r _ => fresh (length h) r
    | Raise _ _ => True
    end.
Proof.
  apply (keeps_untouched _ (λ h r, fresh (length h) r)). intros g.
  apply keeps_set_env_account_region_from_env_vars.
Qed.

(** X5.  [set_default_stack_if_no_stacks] works on a copy: the objects of the
    store it was called in are as they were, whether it returns or raises,
    and the record it returns is a new object. *)
Theorem set_default_stack_if_no_stacks_leaves_input options h :
  h `prefix_of` heap_of (set_default_stack_if_no_stacks options h)
  ∧ match set_default_stack_if_no_stacks options h with
    | Ok r _ => fresh (length h) r
    | Raise _ _ => True
    end.
Proof.
  apply (keeps_untouched _ (λ h r, fresh (length h) r)). intros g.
  apply keeps_set_default_stack_if_no_stacks.
Qed.

(** X6.  [set_stack_names] works on a copy: the names it derives are written
    into the copied descriptors only; the objects of the store it was called
    in are as they were, whether it returns or raises. *)
Theorem set_stack_names_leaves_input options h :
  h `prefix_of` heap_of (set_stack_names options h)
  ∧ match set_stack_names options h with
    | Ok r _ => fresh (length h) r
    | Raise _ _ => True
    end.
Proof.
  apply (keeps_untouched _ (λ h r, fresh (length h) r)). intros g.
  apply keeps_set_stack_names.
Qed.

(** X7.  [simple_defaults], the composition of the three processors above,
    leaves the objects of the store it was called in as they were. *)
Theorem simple_defaults_leaves_input getenv options h :
  h `prefix_of` heap_of (simple_defaults getenv options h)
  ∧ match simple_defaults getenv options h with
    | Ok r _ => fresh (length h) r
    | Raise _ _ => True
    end.
Proof.
  apply (keeps_untouched _ (λ h r, fresh (length h) r)). intros g.
  apply keeps_simple_defaults.
Qed.

(** X8.  [simple_config_defaults] leaves the objects of the store it was called
    in as they were, although [load_toml_config_files] updates a context
    mapping in place: the mapping it updates belongs to the copy that
    [simple_defaults] made. *)
Theorem simple_config_defaults_leaves_input getenv fs options h :
  h `prefix_of` heap_of (simple_config_defaults getenv fs options h)
  ∧ match simple_config_defaults getenv fs options h with
    | Ok r _ => fresh (length h) r
    | Raise _ _ => True
    end.
Proof.
  apply (keeps_untouched _ (λ h r, fresh (length h) r)). intros g.
  apply keeps_simple_config_defaults.
Qed.

(** ** The model builder only allocates *)

Lemma grows_pure {A} (c : M A) : (∀ h, heap_of (c h) = h) → grows c.
Proof. intros Hc h. by rewrite Hc. Qed.

Lemma grows_bind {A B} (c : M A) (k : A → M B) :
  grows c → (∀ a, grows (k a)) → grows (bind c k).
Proof.
  intros Hc Hk h. unfold bind. specialize (Hc h).
  destruct (c h) as [a h1|e h1]; simpl in *; [|done].
  etrans; [exact Hc | apply Hk].
Qed.

Lemma grows_alloc o : grows (alloc o).
Proof. intros h. by apply prefix_app_r. Qed.

Lemma grows_py_get o k dflt : grows (py_get o k dflt).
Proof. apply grows_pure. intros h. unfold py_get. by repeat case_match. Qed.

Lemma grows_py_getitem o k : grows (py_getitem o k).
Proof. apply grows_pure. intros h. unfold py_getitem. by repeat case_match. Qed.

Lemma grows_py_items o : grows (py_items o).
Proof. apply grows_pure. intros h. unfold py_items. by repeat case_match. Qed.

Lemma grows_py_iter o : grows (py_iter o).
Proof. apply grows_pure. intros h. unfold py_iter. by repeat case_match. Qed.

Lemma grows_ret {A} (a : A) : grows (ret a).
Proof. by apply grows_pure. Qed.

Lemma grows_create_environment opts : grows (_create_environment opts).
Proof.
  unfold _create_environment.
  repeat (apply grows_bind; [first [apply grows_py_get | apply grows_py_getitem]
                            | intros ?]).
  apply grows_ret.
Qed.

Lemma grows_cdk_App context : grows (cdk_App context).
Proof.
  unfold cdk_App.
  destruct context; try apply grows_ret;
    (apply grows_bind; [apply grows_py_items | intros ?; apply grows_ret]).
Qed.

Lemma grows_cdk_Stack app id name env : grows (cdk_Stack app id name env).
Proof. apply grows_pure. intros h. by destruct id. Qed.

Lemma grows_apply_stack_tags stack tags : grows (_apply_stack_tags stack tags).
Proof.
  unfold _apply_stack_tags.
  apply grows_bind; [apply grows_py_items | intros ?; apply grows_ret].
Qed.

Lemma grows_build_stacks options app env xs :
  ∀ acc, grows (build_stacks options app env xs acc).
Proof.
  induction xs as [|x xs IH]; intros acc; simpl; [apply grows_ret|].
  apply grows_bind; [apply grows_py_getitem | intros ?].
  apply grows_bind; [apply grows_py_get | intros ?].
  apply grows_bind; [apply grows_cdk_Stack | intros ?].
  apply grows_bind; [apply grows_alloc | intros ?].
  apply grows_bind; [apply grows_py_get | intros ?].
  apply grows_bind; [apply grows_apply_stack_tags | intros ?].
  apply IH.
Qed.

(** Lines 319-338 of [init_ias_model]: what follows the processors only
    reads the options and allocates. *)
Lemma init_ias_model_grows_after_processors ps options h o h1 :
  apply_processors ps options h = Ok o h1 →
  h1 `prefix_of` heap_of (init_ias_model options ps h).
Proof.
  intros Hps. unfold init_ias_model, bind at 1. rewrite Hps.
  revert h1 Hps. intros h1 _. revert h1.
  apply grows_bind; [apply grows_py_getitem | intros ?].
  apply grows_bind; [apply grows_alloc | intros ?].
  apply grows_bind; [apply grows_py_get | intros ?].
  apply grows_bind; [apply grows_create_environment | intros ?].
  apply grows_bind; [apply grows_py_get | intros ?].
  apply grows_bind; [apply grows_cdk_App | intros ?].
  apply grows_bind; [apply grows_alloc | intros ?].
  apply grows_bind; [apply grows_py_get | intros ?].
  apply grows_bind; [apply grows_py_iter | intros ?].
  apply grows_bind; [apply grows_build_stacks | intros ?].
  apply grows_ret.
Qed.

(** X9.  Once the option processors have run, [init_ias_model] writes to no
    object: whatever the processors are and whether the call returns or
    raises, the store they left behind is a prefix of the final store. *)
Theorem init_ias_model_only_allocates ps options h :
  heap_of (apply_processors ps options h)
    `prefix_of` heap_of (init_ias_model options ps h).
Proof.
  destruct (apply_processors ps options h) as [o h1|e h1] eqn:Hps; simpl.
  - by eapply init_ias_model_grows_after_processors.
  - unfold init_ias_model. by rewrite (bind_Raise _ _ _ _ _ Hps).
Qed.

Lemma apply_processors_single p options h :
  heap_of (apply_processors [p] options h) = heap_of (p options h).
Proof. simpl. unfold bind. by destruct (p options h). Qed.

(** X10.  With the default processor list, and with [simple_config_defaults] in
    its place, [init_ias_model] leaves the caller's options, and every
    other object of the store it was called in, as they were. *)
Theorem init_ias_model_leaves_options getenv fs options h :
  h `prefix_of` heap_of (init_ias_model options [simple_defaults getenv] h)
  ∧ h `prefix_of`
      heap_of (init_ias_model options [simple_config_defaults getenv fs] h).
Proof.
  assert (Hps : ∀ p : val → M val,
            h `prefix_of` heap_of (p options h) →
            h `prefix_of` heap_of (init_ias_model options [p] h)).
  { intros p Hp.
    pose proof (apply_processors_single p options h) as Hs.
    destruct (apply_processors [p] options h) as [o h1|e h1] eqn:Hrun;
      simpl in Hs; rewrite <-Hs in Hp.
    - etrans; [exact Hp|].
      exact (init_ias_model_grows_after_processors _ _ _ _ _ Hrun).
    - unfold init_ias_model. by rewrite (bind_Raise _ _ _ _ _ Hrun). }
  split; apply Hps.
  - apply (keeps_untouched _ (λ h r, fresh (length h) r)). intros g.
    apply keeps_simple_defaults.
  - apply (keeps_untouched _ (λ h r, fresh (length h) r)). intros g.
    apply keeps_simple_config_defaults.
Qed.

(** ** Names for the descriptors without one *)

Lemma make_stack_name_strings prefix id env h :
  _make_stack_name (VStr prefix) (VStr id) (VStr env) h
  = Ok (VStr (stack_name_rule prefix id env)) h.
Proof.
  unfold _make_stack_name, stack_name_rule, py_ne.
  rewrite !py_eq_VStr.
  destruct (decide (id = "default")) as [Hid|Hid];
    [rewrite (bool_decide_eq_true_2 _ Hid)
    |rewrite (bool_decide_eq_false_2 _ Hid)];
  (destruct (decide (prefix = "")) as [Hp|Hp];
    [rewrite !(bool_decide_eq_true_2 _ Hp)
    |rewrite !(bool_decide_eq_false_2 _ Hp)]);
  (destruct (decide (env = "")) as [He|He];
    [rewrite ?(bool_decide_eq_true_2 _ He)
    |rewrite ?(bool_decide_eq_false_2 _ He)]);
  simpl;
  (destruct (decide (id = "default" ∧ prefix ≠ "")) as [[? ?]|Hn];
    [|try (exfalso; apply Hn; by split)]);
  try done.
Qed.

Lemma for_in_total {A} (P : heap → Prop) (body : A → M unit) xs :
  (∀ x h, x ∈ xs → P h → ∃ h', body x h = Ok tt h' ∧ P h') →
  ∀ h, P h → ∃ h', for_in xs body h = Ok tt h' ∧ P h'.
Proof.
  induction xs as [|x xs IH]; intros Hbody h HP; [by exists h|].
  destruct (Hbody x h (list_elem_of_here _ _) HP) as (h1 & Hx & HP1).
  destruct (IH (λ y g Hy, Hbody y g (list_elem_of_further _ _ _ Hy)) h1 HP1)
    as (h2 & Hrun & HP2).
  exists h2. split; [|done]. simpl. by rewrite (bind_Ok _ _ _ _ _ Hx).
Qed.

Lemma id_field_default d s :
  id_field d = Some s → default (VStr "default") (d !! "id") = VStr s.
Proof.
  unfold id_field. destruct (d !! "id") as [[| | |]|]; simpl; congruence.
Qed.

Lemma id_field_insert_ne d k v : k ≠ "id" → id_field (<[k := v]> d) = id_field d.
Proof. intros Hk. unfold id_field. by rewrite lookup_insert_ne. Qed.

Lemma id_field_fmap n d : id_field (shift_val n <$> d) = id_field d.
Proof.
  unfold id_field. rewrite lookup_fmap. by destruct (d !! "id") as [[| | |]|].
Qed.

Lemma str_field_fmap n d k : str_field (shift_val n <$> d) k = str_field d k.
Proof.
  unfold str_field. rewrite lookup_fmap. by destruct (d !! k) as [[| | |]|].
Qed.

Lemma explicit_None_default e k :
  explicit e k = None ↔ is_None (default VNone (e !! k)) = true.
Proof.
  unfold explicit. destruct (e !! k) as [v|]; simpl; [|done].
  destruct (is_None v); done.
Qed.

(** A write of a key other than "id" keeps [names_derived], provided that
    what is written as the name of [vi] is [name]. *)
Lemma names_derived_store vs xs vo vi sid name b g w dw k x :
  dict_at g w = Some dw →
  k ≠ "id" →
  (w = vi → k = "name" → x = VStr name) →
  names_derived vs xs vo vi sid name b g →
  names_derived vs xs vo vi sid name b (store w (ODict (<[k := x]> dw)) g).
Proof.
  intros Hw Hk Hname (Hl & Ho & Hxs & dt & Hdt & Hid & Hn).
  split; [|split; [|split]].
  - rewrite list_at_store_ne; [done|]. by eapply dict_list_disjoint.
  - by apply dict_at_store_is_Some.
  - intros y Hy. destruct (Hxs y Hy) as (dy & Hdy & Hidy).
    destruct (decide (w = y)) as [->|Hne].
    + eexists. split; [apply dict_at_store_eq; eauto|].
      rewrite id_field_insert_ne by done. congruence.
    + exists dy. by rewrite dict_at_store_ne.
  - destruct (decide (w = vi)) as [->|Hne].
    + assert (dw = dt) as -> by congruence.
      eexists. split; [apply dict_at_store_eq; eauto|].
      split; [by rewrite id_field_insert_ne|].
      destruct (decide (k = "name")) as [->|Hkn].
      * left. rewrite (Hname eq_refl eq_refl). apply lookup_insert_eq.
      * destruct Hn as [Hn|[Hb Hn]].
        -- left. by rewrite lookup_insert_ne.
        -- right. split; [done|]. by rewrite explicit_insert_ne.
    + exists dt. by rewrite dict_at_store_ne.
Qed.

Lemma names_derived_visited vs xs vo vi sid name b g dt :
  names_derived vs xs vo vi sid name b g →
  dict_at g vi = Some dt →
  dt !! "name" = Some (VStr name) →
  names_derived vs xs vo vi sid name true g.
Proof.
  intros (Hl & Ho & Hxs & dt' & Hdt' & Hid & Hn) Hdt Hname.
  assert (dt' = dt) as -> by congruence.
  split; [done|]. split; [done|]. split; [done|].
  exists dt. split; [done|]. split; [done|]. by left.
Qed.

Lemma set_stack_names_body_derives vs xs vo vi sid dep env b x g :
  x ∈ xs →
  names_derived vs xs vo vi sid (stack_name_rule dep sid env) b g →
  ∃ g',
    (let! stack_id := py_get x "id" (VStr "default") in
     let! name := py_get x "name" VNone in
     if is_None name
     then
       let! new_name := _make_stack_name (VStr dep) stack_id (VStr env) in
       py_setitem x "name" new_name
     else ret tt) g = Ok tt g'
    ∧ names_derived vs xs vo vi sid (stack_name_rule dep sid env) b g'
    ∧ (x = vi →
       names_derived vs xs vo vi sid (stack_name_rule dep sid env) true g').
Proof.
  intros Hx Hinv. pose proof Hinv as (Hl & Ho & Hxs & dt & Hdt & Hid & Hn).
  destruct (Hxs x Hx) as (dx & Hdx & [sx Hsx]).
  rewrite (bind_Ok _ _ _ _ _ (py_get_dict_at _ _ _ "id" _ Hdx)).
  rewrite (id_field_default _ _ Hsx).
  rewrite (bind_Ok _ _ _ _ _ (py_get_dict_at _ _ _ "name" _ Hdx)).
  destruct (is_None (default VNone (dx !! "name"))) eqn:Hnone.
  - rewrite (bind_Ok _ _ _ _ _ (make_stack_name_strings dep sx env g)).
    rewrite (py_setitem_dict_at _ _ _ "name" _ Hdx).
    assert (Hsame : x = vi → "name" = "name" →
                    VStr (stack_name_rule dep sx env)
                    = VStr (stack_name_rule dep sid env)).
    { intros -> _. assert (dx = dt) as -> by congruence. congruence. }
    eexists. split; [done|].
    pose proof (names_derived_store _ _ _ _ _ _ _ _ _ _ "name" _
                  Hdx ltac:(done) Hsame Hinv) as Hinv'.
    split; [done|]. intros ->.
    eapply names_derived_visited; [exact Hinv'|apply dict_at_store_eq; eauto|].
    rewrite lookup_insert_eq. by rewrite (Hsame eq_refl eq_refl).
  - exists g. split; [done|]. split; [done|].
    intros ->. assert (dx = dt) as -> by congruence.
    destruct Hn as [Hn|[_ Hn]]; [by eapply names_derived_visited|].
    apply explicit_None_default in Hn. congruence.
Qed.

(** X11.  [set_stack_names] gives a descriptor that has no name the name the
    four-branch rule derives from the deployment name, the descriptor's id
    ("default" when it has none) and the environment name. *)
Theorem set_stack_names_derives_name
    options h d e dep env vs xs i vi di sid :
  dict_at h options = Some d →
  str_field d "deployment_name" = Some dep →
  env_in h d = Some e →
  str_field e "name" = Some env →
  d !! "stacks" = Some vs →
  list_at h vs = Some xs →
  (∀ x, x ∈ xs → ∃ dx, dict_at h x = Some dx ∧ is_Some (id_field dx)) →
  xs !! i = Some vi →
  dict_at h vi = Some di →
  id_field di = Some sid →
  explicit di "name" = None →
  ∃ r h' d' di',
    set_stack_names options h = Ok r h'
    ∧ dict_at h' r = Some d'
    ∧ d' !! "stacks" = Some (shift_val (length h) vs)
    ∧ list_at h' (shift_val (length h) vs) = Some (shift_val (length h) <$> xs)
    ∧ (shift_val (length h) <$> xs) !! i = Some (shift_val (length h) vi)
    ∧ dict_at h' (shift_val (length h) vi) = Some di'
    ∧ di' !! "name" = Some (VStr (stack_name_rule dep sid env)).
Proof.
  intros Hd Hdep He Henv Hvs Hxs Hwf Hi Hdi Hsid Hname.
  pose proof (dict_at_copy _ _ _ Hd) as Hd1.
  pose proof (list_at_copy _ _ _ Hxs) as Hxs1.
  pose proof (dict_at_copy _ _ _ Hdi) as Hdi1.
  pose proof (env_copy _ _ _ _ He eq_refl) as He1.
  set (n := length h) in *.
  set (h1 := copy_of h) in *.
  set (new_options := shift_val n options) in *.
  set (xs' := shift_val n <$> xs) in *.
  set (h3 := ((h1 ++ [ODict ∅]) ++ [OList []])%list).
  set (rule := stack_name_rule dep sid env).
  assert (Hi' : xs' !! i = Some (shift_val n vi))
    by (unfold xs'; by rewrite list_lookup_fmap, Hi).
  assert (Hinv : names_derived (shift_val n vs) xs' new_options (shift_val n vi)
                   sid rule false h3).
  { split; [by do 2 apply list_at_app|].
    split; [eexists; by do 2 apply dict_at_app|]. split.
    - intros x (y & -> & Hy)%list_elem_of_fmap.
      destruct (Hwf y Hy) as (dy & Hdy & Hidy).
      exists (shift_val n <$> dy).
      split; [do 2 apply dict_at_app; by apply dict_at_copy|].
      by rewrite id_field_fmap.
    - exists (shift_val n <$> di).
      split; [by do 2 apply dict_at_app|].
      split; [by rewrite id_field_fmap|]. right. split; [done|].
      by rewrite explicit_fmap, Hname. }
  pose proof (take_drop_middle _ _ _ Hi') as Hsplit.
  set (body := λ stack_info : val,
         let! stack_id := py_get stack_info "id" (VStr "default") in
         let! name := py_get stack_info "name" VNone in
         if is_None name
         then
           let! new_name := _make_stack_name (VStr dep) stack_id (VStr env) in
           py_setitem stack_info "name" new_name
         else ret tt).
  assert (Hbody : ∀ b x g,
            x ∈ xs' →
            names_derived (shift_val n vs) xs' new_options (shift_val n vi)
              sid rule b g →
            ∃ g', body x g = Ok tt g'
                  ∧ names_derived (shift_val n vs) xs' new_options
                      (shift_val n vi) sid rule b g'
                  ∧ (x = shift_val n vi →
                     names_derived (shift_val n vs) xs' new_options
                       (shift_val n vi) sid rule true g')).
  { intros b x g Hx Hg. by apply set_stack_names_body_derives. }
  destruct (for_in_total
              (names_derived (shift_val n vs) xs' new_options (shift_val n vi)
                 sid rule false) body (take i xs')) with (h := h3)
    as (g1 & Hrun1 & Hinv1); [|done|].
  { intros x g Hx Hg. destruct (Hbody false x g) as (g' & Hb & Hg' & _);
      [|done|by exists g'].
    rewrite <-Hsplit. apply elem_of_app. by left. }
  destruct (Hbody false (shift_val n vi) g1) as (g2 & Hrun2 & _ & Hinv2);
    [by eapply list_elem_of_lookup_2 | done |].
  specialize (Hinv2 eq_refl).
  destruct (for_in_total
              (names_derived (shift_val n vs) xs' new_options (shift_val n vi)
                 sid rule true) body (drop (S i) xs')) with (h := g2)
    as (g3 & Hrun3 & Hinv3); [|done|].
  { intros x g Hx Hg. destruct (Hbody true x g) as (g' & Hb & Hg' & _);
      [|done|by exists g'].
    rewrite <-Hsplit. apply elem_of_app. right.
    by apply list_elem_of_further. }
  assert (Hloop : for_in xs' body h3 = Ok tt g3).
  { rewrite <-Hsplit. rewrite (for_in_app_Ok _ _ _ _ _ Hrun1). simpl.
    by rewrite (bind_Ok _ _ _ _ _ Hrun2). }
  pose proof Hinv3 as (_ & [dX HdX] & _).
  pose proof (names_derived_store _ _ _ _ _ _ _ _ new_options dX "stacks"
                (shift_val n vs) HdX ltac:(done) ltac:(done) Hinv3)
    as (Hl4 & _ & _ & dt & Hdt & _ & [Hn|[? _]]); [|done].
  exists new_options, (store new_options
                         (ODict (<["stacks" := shift_val n vs]> dX)) g3),
         (<["stacks" := shift_val n vs]> dX), dt.
  split.
  { unfold set_stack_names.
    rewrite (bind_Ok _ _ _ _ _ (deepcopy_eq _ _)). fold n h1 new_options.
    rewrite (bind_Ok _ _ _ _ _ (py_get_dict_at _ _ _ "deployment_name" _ Hd1)).
    rewrite (str_field_default _ _ _
               (eq_trans (str_field_fmap n d "deployment_name") Hdep)).
    rewrite (bind_Ok _ _ h1 (VRef (length h1)) (h1 ++ [ODict ∅])%list eq_refl).
    rewrite (bind_Ok _ _ _ _ _
               (py_get_dict_at _ _ _ "environment" _
                  (dict_at_app _ [ODict ∅] _ _ Hd1))).
    rewrite (bind_Ok _ _ _ _ _ (py_get_dict_at _ _ _ "name" (VStr "") He1)).
    rewrite (str_field_default _ _ _ (eq_trans (str_field_fmap n e "name") Henv)).
    rewrite (bind_Ok _ _ (h1 ++ [ODict ∅])%list
               (VRef (length (h1 ++ [ODict ∅])%list)) h3 eq_refl).
    assert (Hd3 : dict_at h3 new_options = Some (shift_val n <$> d))
      by (by do 2 apply dict_at_app).
    assert (Hxs3 : list_at h3 (shift_val n vs) = Some xs')
      by (by do 2 apply list_at_app).
    rewrite (bind_Ok _ _ _ _ _ (py_get_dict_at _ _ _ "stacks" _ Hd3)).
    rewrite lookup_fmap, Hvs. simpl default.
    rewrite (bind_Ok _ _ _ _ _ (py_iter_list _ _ _ Hxs3)). change (for_in xs' _) with (for_in xs' body).
    rewrite (bind_Ok _ _ _ _ _ Hloop).
    by rewrite (bind_Ok _ _ _ _ _
                  (py_setitem_dict_at _ _ _ "stacks" (shift_val n vs) HdX)). }
  split; [apply dict_at_store_eq; eauto|].
  split; [apply lookup_insert_eq|]. done.
Qed.

(** ** Building the model *)

Lemma set_stack_names_derives_name_witness :
  ∃ r h' d' di',
    set_stack_names (VRef 0) test_stack_names_heap = Ok r h'
    ∧ dict_at h' r = Some d'
    ∧ d' !! "stacks" = Some (VRef 5)
    ∧ list_at h' (VRef 5) = Some [VRef 6; VRef 7]
    ∧ [VRef 6; VRef 7] !! 1 = Some (VRef 7)
    ∧ dict_at h' (VRef 7) = Some di'
    ∧ di' !! "name" = Some (VStr "test-test2").
Proof.
  apply (set_stack_names_derives_name (VRef 0) test_stack_names_heap
           {[ "deployment_name" := VStr "test"; "stacks" := VRef 1 ]} ∅
           "test" "" (VRef 1) [VRef 2; VRef 3] 1 (VRef 3)
           {[ "id" := VStr "test2" ]} "test2"
           eq_refl eq_refl eq_refl eq_refl eq_refl eq_refl);
    [|reflexivity..].
  intros x [->|[->|[]%elem_of_nil]%elem_of_cons]%elem_of_cons;
    eexists; (split; [reflexivity | by eexists]).
Defined.















Lemma apply_processors_app ps qs options h :
  apply_processors (ps ++ qs) options h
  = bind (apply_processors ps options) (apply_processors qs) h.
Proof.
  revert options h. induction ps as [|p ps IH]; intros options h;
    [reflexivity|].
  simpl. unfold bind. destruct (p options h) as [o1 h1|e h1];
    [by rewrite IH | reflexivity].
Qed.

(** X15.  The option processors run in list order, each on the record the one
    before it returned: building the model with the list [ps ++ qs] is
    building it with [qs] from the record and the store that [ps] left. *)
Theorem init_ias_model_processors_in_order ps qs options h o1 h1 :
  apply_processors ps options h = Ok o1 h1 →
  init_ias_model options (ps ++ qs) h = init_ias_model o1 qs h1.
Proof.
  intros Hps.
  assert (apply_processors (ps ++ qs) options h = apply_processors qs o1 h1)
    as Heq by (by rewrite apply_processors_app, (bind_Ok _ _ _ _ _ Hps)).
  unfold init_ias_model, bind. by rewrite Heq.
Qed.

Lemma init_ias_model_processors_in_order_witness :
  ∃ o1 h1,
    apply_processors [set_default_stack_if_no_stacks] (VRef 0)
      test_name_only_heap = Ok o1 h1
    ∧ init_ias_model (VRef 0)
        ([set_default_stack_if_no_stacks] ++ [set_stack_names])
        test_name_only_heap
      = init_ias_model o1 [set_stack_names] h1.
Proof.
  eexists _, _. split; [reflexivity|].
  exact (init_ias_model_processors_in_order [set_default_stack_if_no_stacks]
           [set_stack_names] (VRef 0) test_name_only_heap _ _ eq_refl).
Defined.

(** X16.  A processor that raises ends [init_ias_model] with that exception: the
    processors after it are not called and no model is built. *)
Theorem init_ias_model_processor_raises ps p qs options h o1 h1 e h2 :
  apply_processors ps options h = Ok o1 h1 →
  p o1 h1 = Raise e h2 →
  init_ias_model options (ps ++ p :: qs) h = Raise e h2.
Proof.
  intros Hps Hp. unfold init_ias_model. apply bind_Raise.
  rewrite apply_processors_app, (bind_Ok _ _ _ _ _ Hps). simpl.
  by apply bind_Raise.
Qed.

Lemma init_ias_model_processor_raises_witness :
  ∃ o1 h1,
    apply_processors [set_default_stack_if_no_stacks] (VRef 0)
      test_name_only_heap = Ok o1 h1
    ∧ init_ias_model (VRef 0)
        ([set_default_stack_if_no_stacks]
           ++ failing_processor :: [set_stack_names])%list
        test_name_only_heap
      = Raise Unmodelled h1.
Proof.
  eexists _, _. split; [reflexivity|].
  exact (init_ias_model_processor_raises [set_default_stack_if_no_stacks]
           failing_processor [set_stack_names] (VRef 0) test_name_only_heap
           _ _ Unmodelled _ eq_refl eq_refl).
Defined.


(** ** Descriptors without an id *)



